(** * Finetuning torchvision models: the adapter and the training loop

    A shallow embedding of the three functions of the finetuning notebook,
    [set_parameter_requires_grad], [initialize_model] and [train_model],
    together with the top-level cells that call them.

    The deep-learning framework itself (tensors, the pretrained model zoo,
    the forward and backward passes, the optimizer) is not part of the
    notebook; it enters the development as interfaces (type classes), and
    the facts the proofs need about it are stated as explicit hypotheses. *)

From Stdlib Require Import List String ZArith QArith Bool Arith Lia.
Import ListNotations.
Close Scope Q_scope.

Set Implicit Arguments.

(** ** Exceptions and the state-and-error monad *)

(** The exceptions a run of the notebook can end with. *)
Inductive Exc : Type :=
| SystemExit          (* raised by [exit()], as in a script *)
| AttributeError      (* a missing attribute, e.g. [model_ft.fc] *)
| IndexError          (* [classifier[6]] past the end of a Sequential *)
| RuntimeError        (* raised by the framework: bad shapes, bad keys *)
| TypeError           (* a tuple handed to the criterion *)
| ValueError          (* unpacking a single tensor into two names *)
| ZeroDivisionError.  (* a Python float divided by [len(dataset) = 0] *)

(** A computation over a mutable state [S].  An exception does not roll
    the state back: the state reached when it was raised is returned with
    it, as in Python. *)
Definition M (S A : Type) : Type := S -> (Exc + A) * S.

Definition ret {S A} (a : A) : M S A := fun s => (inr a, s).

Definition bind {S A B} (c : M S A) (k : A -> M S B) : M S B :=
  fun s => match c s with
           | (inr a, s') => k a s'
           | (inl e, s') => (inl e, s')
           end.

Definition raise {S A} (e : Exc) : M S A := fun s => (inl e, s).

Definition gets {S A} (f : S -> A) : M S A := fun s => (inr (f s), s).

Definition modify {S} (f : S -> S) : M S unit := fun s => (inr tt, f s).

(** A pure step that may raise. *)
Definition lift {S A} (r : Exc + A) : M S A := fun s => (r, s).

Declare Scope monad_scope.
Delimit Scope monad_scope with monad.
Notation "x <- c ;; k" := (bind c (fun x => k))
  (at level 61, c at next level, right associativity) : monad_scope.
Notation "' p <- c ;; k" := (bind c (fun x => let 'p := x in k))
  (at level 61, p pattern, c at next level, right associativity) : monad_scope.
Notation "c ;; k" := (bind c (fun _ => k))
  (at level 61, right associativity) : monad_scope.
Open Scope monad_scope.

(** [for x in l: acc = body(acc, x)] *)
Fixpoint for_each {S A X} (l : list X) (body : A -> X -> M S A) (acc : A)
  : M S A :=
  match l with
  | [] => ret acc
  | x :: l' => acc' <- body acc x ;; for_each l' body acc'
  end.

(** ** Modules, layers and parameters *)

(** Tensors are opaque.  [init_tensor shape] is the freshly initialised
    tensor a new layer is created with. *)
Class TensorLib : Type := {
  tensor : Type;
  init_tensor : list Z -> tensor
}.

Section Torch.
Context {TL : TensorLib}.

(** [torch.nn.Parameter]: the values, the accumulated gradient and the
    [.requires_grad] flag. *)
Record Param : Type := mkParam {
  data : tensor;
  grad : option tensor;
  requires_grad : bool
}.

Inductive LayerKind : Type :=
| Linear (in_features out_features : Z)
| Conv2d (in_channels out_channels : Z) (kernel_size stride : Z * Z)
| OtherLayer.

(** A leaf layer with its own named parameters ([weight], [bias], ...). *)
Record Layer : Type := mkLayer {
  kind : LayerKind;
  params : list (string * Param)
}.

(** A model is represented by the table of its leaf layers, keyed by the
    dotted attribute path from the root ([fc], [classifier.6],
    [AuxLogits.fc]) and kept in registration order: the view
    [named_modules()] gives of a module tree.  [training] is the flag
    [model.train()] and [model.eval()] set; [num_classes_attr] is the plain
    attribute [num_classes] the squeezenet branch assigns. *)
Record Module : Type := mkModule {
  layers : list (string * Layer);
  training : bool;
  num_classes_attr : option Z
}.

Definition child (path name : string) : string := (path ++ "." ++ name)%string.

Fixpoint lookup {A} (key : string) (l : list (string * A)) : option A :=
  match l with
  | [] => None
  | (k, v) :: l' => if String.eqb k key then Some v else lookup key l'
  end.

(** Assignment to an existing key keeps its position (the tables are
    ordered dictionaries); a new key goes to the end. *)
Fixpoint assign {A} (key : string) (v : A) (l : list (string * A))
  : list (string * A) :=
  match l with
  | [] => [(key, v)]
  | (k, v') :: l' =>
      if String.eqb k key then (k, v) :: l' else (k, v') :: assign key v l'
  end.

(** [model.<path>] *)
Definition getattr (model : Module) (path : string) : Exc + Layer :=
  match lookup path (layers model) with
  | Some l => inr l
  | None => inl AttributeError
  end.

(** [model.<seq>[<idx>]], [idx] being the key the Sequential stores the
    child under.  A missing entry is reported as the index error. *)
Definition getitem (model : Module) (seq idx : string) : Exc + Layer :=
  match lookup (child seq idx) (layers model) with
  | Some l => inr l
  | None => inl IndexError
  end.

(** [model.<path> = layer] *)
Definition setattr (model : Module) (path : string) (layer : Layer) : Module :=
  mkModule (assign path layer (layers model)) (training model)
           (num_classes_attr model).

(** [model.<seq>[<idx>] = layer]: a Sequential refuses an index it does
    not have. *)
Definition setitem (model : Module) (seq idx : string) (layer : Layer)
  : Exc + Module :=
  match lookup (child seq idx) (layers model) with
  | Some _ => inr (setattr model (child seq idx) layer)
  | None => inl IndexError
  end.

(** [layer.in_features], which only a Linear layer has. *)
Definition in_features_of (l : Layer) : Exc + Z :=
  match kind l with
  | Linear i _ => inr i
  | _ => inl AttributeError
  end.

Definition new_param (shape : list Z) : Param :=
  mkParam (init_tensor shape) None true.

(** [nn.Linear(in_features, out_features)]: new parameters require
    gradients by default.  A negative dimension is refused when the weight
    tensor is allocated. *)
Definition nn_Linear (in_features out_features : Z) : Exc + Layer :=
  if ((in_features <? 0) || (out_features <? 0))%Z then inl RuntimeError
  else inr (mkLayer (Linear in_features out_features)
              [("weight"%string, new_param [out_features; in_features]);
               ("bias"%string, new_param [out_features])]).

(** [nn.Conv2d(in_channels, out_channels, kernel_size=..., stride=...)] *)
Definition nn_Conv2d (in_channels out_channels : Z) (kernel_size stride : Z * Z)
  : Exc + Layer :=
  if ((in_channels <? 0) || (out_channels <? 0))%Z then inl RuntimeError
  else inr (mkLayer (Conv2d in_channels out_channels kernel_size stride)
              [("weight"%string,
                new_param [out_channels; in_channels;
                           fst kernel_size; snd kernel_size]);
               ("bias"%string, new_param [out_channels])]).

Definition named_params_of (path : string) (l : Layer) : list (string * Param) :=
  map (fun np => (child path (fst np), snd np)) (params l).

(** [model.named_parameters()], in registration order. *)
Definition named_parameters (model : Module) : list (string * Param) :=
  flat_map (fun pl => named_params_of (fst pl) (snd pl)) (layers model).

(** [model.parameters()] *)
Definition parameters (model : Module) : list Param :=
  map snd (named_parameters model).

Definition freeze_param (p : Param) : Param :=
  mkParam (data p) (grad p) false.

Definition freeze_layer (l : Layer) : Layer :=
  mkLayer (kind l) (map (fun np => (fst np, freeze_param (snd np))) (params l)).

(** [[
def set_parameter_requires_grad(model, feature_extracting):
    if feature_extracting:
        for param in model.parameters():
            param.requires_grad = False
]] *)
Definition set_parameter_requires_grad (model : Module) (feature_extracting : bool)
  : Module :=
  if feature_extracting then
    mkModule (map (fun pl => (fst pl, freeze_layer (snd pl))) (layers model))
             (training model) (num_classes_attr model)
  else model.

(** ** The model zoo *)

(** [torchvision.models]: the six constructors the notebook calls, each
    taking the [pretrained] flag. *)
Class Torchvision : Type := {
  resnet18 : bool -> Module;
  alexnet : bool -> Module;
  vgg11_bn : bool -> Module;
  squeezenet1_0 : bool -> Module;
  densenet121 : bool -> Module;
  inception_v3 : bool -> Module
}.

Context {TV : Torchvision}.

(** ** Console output *)

Inductive Phase : Type := train | val.

Definition Phase_eqb (a b : Phase) : bool :=
  match a, b with
  | train, train | val, val => true
  | _, _ => false
  end.

(** A printed line.  Formatted lines are kept as their arguments. *)
Inductive Line : Type :=
| LText (s : string)
| LModel (m : Module)                      (* print(model_ft) *)
| LEpoch (epoch : nat) (last : Z)          (* 'Epoch {}/{}' *)
| LPhase (phase : Phase) (epoch_loss epoch_acc : Q) (* '{} Loss: {:.4f} Acc: {:.4f}' *)
| LComplete                                (* 'Training complete in ...' *)
| LBest (best_acc : Q).                    (* 'Best val Acc: {:4f}' *)

Definition Console : Type := list Line.

Definition print (l : Line) : M Console unit := modify (fun out => out ++ [l]).

(** ** initialize_model *)

(** The body of each branch that reshapes one Linear head reached by an
    attribute path:
    [[
        num_ftrs = model_ft.<path>.in_features
        model_ft.<path> = nn.Linear(num_ftrs, num_classes)
    ]] *)
Definition reshape_attr (model_ft : Module) (path : string) (num_classes : Z)
  : Exc + Module :=
  match getattr model_ft path with
  | inl e => inl e
  | inr l =>
      match in_features_of l with
      | inl e => inl e
      | inr num_ftrs =>
          match nn_Linear num_ftrs num_classes with
          | inl e => inl e
          | inr fc => inr (setattr model_ft path fc)
          end
      end
  end.

(** [[
        num_ftrs = model_ft.classifier[6].in_features
        model_ft.classifier[6] = nn.Linear(num_ftrs,num_classes)
    ]] *)
Definition reshape_item (model_ft : Module) (seq idx : string) (num_classes : Z)
  : Exc + Module :=
  match getitem model_ft seq idx with
  | inl e => inl e
  | inr l =>
      match in_features_of l with
      | inl e => inl e
      | inr num_ftrs =>
          match nn_Linear num_ftrs num_classes with
          | inl e => inl e
          | inr fc => setitem model_ft seq idx fc
          end
      end
  end.

Definition initialize_model (model_name : string) (num_classes : Z)
    (feature_extract use_pretrained : bool) : M Console (Module * Z) :=
  if String.eqb model_name "resnet" then
    let model_ft := resnet18 use_pretrained in
    let model_ft := set_parameter_requires_grad model_ft feature_extract in
    model_ft <- lift (reshape_attr model_ft "fc" num_classes) ;;
    ret (model_ft, 224%Z)
  else if String.eqb model_name "alexnet" then
    let model_ft := alexnet use_pretrained in
    let model_ft := set_parameter_requires_grad model_ft feature_extract in
    model_ft <- lift (reshape_item model_ft "classifier" "6" num_classes) ;;
    ret (model_ft, 224%Z)
  else if String.eqb model_name "vgg" then
    let model_ft := vgg11_bn use_pretrained in
    let model_ft := set_parameter_requires_grad model_ft feature_extract in
    model_ft <- lift (reshape_item model_ft "classifier" "6" num_classes) ;;
    ret (model_ft, 224%Z)
  else if String.eqb model_name "squeezenet" then
    let model_ft := squeezenet1_0 use_pretrained in
    let model_ft := set_parameter_requires_grad model_ft feature_extract in
    conv <- lift (nn_Conv2d 512 num_classes (1, 1)%Z (1, 1)%Z) ;;
    model_ft <- lift (setitem model_ft "classifier" "1" conv) ;;
    let model_ft := mkModule (layers model_ft) (training model_ft)
                             (Some num_classes) in
    ret (model_ft, 224%Z)
  else if String.eqb model_name "densenet" then
    let model_ft := densenet121 use_pretrained in
    let model_ft := set_parameter_requires_grad model_ft feature_extract in
    model_ft <- lift (reshape_attr model_ft "classifier" num_classes) ;;
    ret (model_ft, 224%Z)
  else if String.eqb model_name "inception" then
    let model_ft := inception_v3 use_pretrained in
    let model_ft := set_parameter_requires_grad model_ft feature_extract in
    (* Handle the auxilary net *)
    model_ft <- lift (reshape_attr model_ft "AuxLogits.fc" num_classes) ;;
    (* Handle the primary net *)
    model_ft <- lift (reshape_attr model_ft "fc" num_classes) ;;
    ret (model_ft, 299%Z)
  else
    print (LText "Invalid model name, exiting...") ;;
    raise SystemExit.

(** ** State dictionaries *)

(** [model.state_dict()]: the parameter values by name.  Buffers (the
    running statistics of normalisation layers) are not modelled. *)
Definition state_dict (model : Module) : list (string * tensor) :=
  map (fun np => (fst np, data (snd np))) (named_parameters model).

(** [copy.deepcopy]: the copy shares nothing with the live tensors, which
    the value semantics of the embedding gives for free. *)
Definition deepcopy {A} (x : A) : A := x.

Definition mem (key : string) (keys : list string) : bool :=
  existsb (String.eqb key) keys.

Definition copy_into (sd : list (string * tensor)) (name : string) (p : Param)
  : Param :=
  match lookup name sd with
  | Some t => mkParam t (grad p) (requires_grad p)
  | None => p
  end.

Definition load_layer (sd : list (string * tensor)) (path : string) (l : Layer)
  : Layer :=
  mkLayer (kind l)
    (map (fun np => (fst np, copy_into sd (child path (fst np)) (snd np)))
         (params l)).

(** [model.load_state_dict(sd)] in its default strict mode: a missing or
    unexpected key is an error, otherwise every parameter is overwritten
    in place with the value stored under its name. *)
Definition load_state_dict (model : Module) (sd : list (string * tensor))
  : Exc + Module :=
  let expected := map fst (state_dict model) in
  let given := map fst sd in
  let missing := filter (fun k => negb (mem k given)) expected in
  let unexpected := filter (fun k => negb (mem k expected)) given in
  match missing, unexpected with
  | [], [] =>
      inr (mkModule
             (map (fun pl => (fst pl, load_layer sd (fst pl) (snd pl)))
                  (layers model))
             (training model) (num_classes_attr model))
  | _, _ => inl RuntimeError
  end.

(** ** The framework seen from the training loop *)

(** What [model(inputs)] returns: one tensor of outputs, or the pair the
    two-headed network returns in training mode. *)
Inductive Output (logits : Type) : Type :=
| Single (outputs : logits)
| WithAux (outputs aux_outputs : logits).

(** The calls [train_model] makes into the framework.  A batch of inputs
    is a list of images and a batch of labels a list of class indices.
    The optimizer holds references to the parameters of the model, so
    [zero_grad] and [step] act on the model. *)
Class Framework : Type := {
  image : Type;
  logits : Type;
  loss : Type;
  optim : Type;
  (* model(inputs), under the current grad mode *)
  forward : bool -> Module -> list image -> Module * Output logits;
  (* loss1 + loss2, c * loss2, loss.item() *)
  loss_add : loss -> loss -> loss;
  loss_scale : Q -> loss -> loss;
  loss_item : loss -> Q;
  (* loss.backward() *)
  backward : loss -> Module -> Module;
  (* the indices returned by torch.max(outputs, 1) *)
  torch_max1 : logits -> list nat;
  (* optimizer.zero_grad(), optimizer.step() *)
  zero_grad : optim -> Module -> Module;
  step : optim -> Module -> optim * Module;
  (* optim.SGD(params, lr=..., momentum=...), the parameters being given
     by the names they have in the model *)
  optim_SGD : list string -> Q -> Q -> optim
}.

Context {FW : Framework}.

(** [a == b] on one-dimensional tensors, with the broadcasting of a
    one-element operand. *)
Definition tensor_eq (a b : list nat) : Exc + list bool :=
  if Nat.eqb (List.length a) (List.length b) then
    inr (map (fun xy => Nat.eqb (fst xy) (snd xy)) (combine a b))
  else match a, b with
       | [x], _ => inr (map (Nat.eqb x) b)
       | _, [y] => inr (map (fun x => Nat.eqb x y) a)
       | _, _ => inl RuntimeError
       end.

(** [torch.sum] of a boolean tensor *)
Definition tensor_sum (l : list bool) : nat :=
  List.length (filter (fun b => b) l).

(** A data loader: the size of its dataset, and the batches
    [(inputs, labels)] it yields on its [k]-th traversal of the run (the
    order changes from one traversal to the next when it shuffles). *)
Record DataLoader : Type := mkLoader {
  dataset_len : nat;
  batches : nat -> list (list image * list nat)
}.

(** ** The mutable world of a run *)

Inductive Head : Type := Primary | Auxiliary.

(** The framework calls of a run, recorded in the order they are made. *)
Inductive Call : Type :=
| CallTrain                     (* model.train() *)
| CallEval                      (* model.eval() *)
| CallZeroGrad                  (* optimizer.zero_grad() *)
| CallForward (grad_on : bool)  (* model(inputs) *)
| CallCriterion (h : Head)      (* criterion(outputs, labels) *)
| CallBackward                  (* loss.backward() *)
| CallStep                      (* optimizer.step() *)
| CallDeepCopy                  (* copy.deepcopy(model.state_dict()) *)
| CallLoad.                     (* model.load_state_dict(...) *)

(** Where a call is made: in a phase of an epoch, or outside the loop. *)
Definition Site : Type := option (nat * Phase).

Definition Event : Type := (Site * Call)%type.

(** The objects [train_model] is handed by reference and mutates, the
    global grad mode and the console.  [calls] is the record of framework
    calls. *)
Record World : Type := mkWorld {
  model : Module;
  optimizer : optim;
  grad_enabled : bool;
  calls : list Event;
  stdout : Console
}.

Definition set_model (m : Module) (w : World) : World :=
  mkWorld m (optimizer w) (grad_enabled w) (calls w) (stdout w).

Definition set_optimizer (o : optim) (w : World) : World :=
  mkWorld (model w) o (grad_enabled w) (calls w) (stdout w).

Definition set_grad_enabled (b : bool) (w : World) : World :=
  mkWorld (model w) (optimizer w) b (calls w) (stdout w).

Definition log (ev : Event) (w : World) : World :=
  mkWorld (model w) (optimizer w) (grad_enabled w) (calls w ++ [ev]) (stdout w).

Definition set_stdout (out : Console) (w : World) : World :=
  mkWorld (model w) (optimizer w) (grad_enabled w) (calls w) out.

Definition emit (site : Site) (c : Call) : M World unit :=
  modify (log (site, c)).

(** Run a computation that only writes to the console. *)
Definition on_console {A} (c : M Console A) : M World A :=
  fun w => let (r, out) := c (stdout w) in (r, set_stdout out w).

(** [with torch.set_grad_enabled(mode): body]; the previous mode is
    restored on the way out, also when [body] raises. *)
Definition with_grad_enabled {A} (mode : bool) (body : M World A) : M World A :=
  fun w =>
    let prev := grad_enabled w in
    let (r, w') := body (set_grad_enabled mode w) in
    (r, set_grad_enabled prev w').

(** ** train_model *)

(** The framework calls, each recorded at the site it is made from. *)
Definition call_train_mode (site : Site) (mode : bool) : M World unit :=
  modify (fun w =>
            set_model (mkModule (layers (model w)) mode
                                (num_classes_attr (model w))) w) ;;
  emit site (if mode then CallTrain else CallEval).

Definition call_zero_grad (site : Site) : M World unit :=
  modify (fun w => set_model (zero_grad (optimizer w) (model w)) w) ;;
  emit site CallZeroGrad.

Definition call_model (site : Site) (inputs : list image)
  : M World (Output logits) :=
  fun w =>
    let (m', out) := forward (grad_enabled w) (model w) inputs in
    (inr out, log (site, CallForward (grad_enabled w)) (set_model m' w)).

Definition call_criterion (site : Site) (h : Head)
    (criterion : logits -> list nat -> loss)
    (outputs : logits) (labels : list nat) : M World loss :=
  emit site (CallCriterion h) ;;
  ret (criterion outputs labels).

Definition call_backward (site : Site) (l : loss) : M World unit :=
  modify (fun w => set_model (backward l (model w)) w) ;;
  emit site CallBackward.

Definition call_step (site : Site) : M World unit :=
  modify (fun w =>
            let (o', m') := step (optimizer w) (model w) in
            set_optimizer o' (set_model m' w)) ;;
  emit site CallStep.

Definition call_load_state_dict (sd : list (string * tensor)) : M World unit :=
  m <- gets model ;;
  m' <- lift (load_state_dict m sd) ;;
  modify (set_model m') ;;
  emit None CallLoad.

Definition say (l : Line) : M World unit := on_console (print l).

(** [running_corrects] starts as the Python int [0] and becomes a tensor
    with the first [+=]. *)
Inductive Corrects : Type :=
| IntZero
| TensorCount (n : nat).

Definition add_corrects (c : Corrects) (n : nat) : Corrects :=
  match c with
  | IntZero => TensorCount n
  | TensorCount k => TensorCount (k + n)
  end.

(** [running_loss / len(dataloaders[phase].dataset)], on Python floats
    (kept as exact rationals). *)
Definition float_div (x : Q) (n : nat) : Exc + Q :=
  match n with
  | O => inl ZeroDivisionError
  | S _ => inr (x / inject_Z (Z.of_nat n))%Q
  end.

(** [running_corrects.double() / len(dataloaders[phase].dataset)]: an int
    has no [.double()].  The statement before it has already raised when
    the length is [0]. *)
Definition accuracy (c : Corrects) (n : nat) : Exc + Q :=
  match c with
  | IntZero => inl AttributeError
  | TensorCount k => inr (Z.of_nat k # Pos.of_nat n)%Q
  end.

(** [a > b] *)
Definition Qgt_bool (a b : Q) : bool := negb (Qle_bool a b).

(** The local variables that outlive an epoch. *)
Record Locals : Type := mkLocals {
  best_acc : Q;
  best_model_wts : list (string * tensor);
  val_acc_history : list Q
}.

Section TrainModel.
Variable dataloaders : Phase -> DataLoader.
Variable criterion : logits -> list nat -> loss.
Variable num_epochs : nat.
Variable is_inception : bool.

(** The forward pass and the loss of one batch. *)
Definition forward_loss (site : Site) (phase : Phase)
    (inputs : list image) (labels : list nat) : M World (loss * logits) :=
  if is_inception && Phase_eqb phase train then
    out <- call_model site inputs ;;
    match out with
    | WithAux outputs aux_outputs =>
        loss1 <- call_criterion site Primary criterion outputs labels ;;
        loss2 <- call_criterion site Auxiliary criterion aux_outputs labels ;;
        ret (loss_add loss1 (loss_scale (4 # 10)%Q loss2), outputs)
    | Single _ => raise ValueError
    end
  else
    out <- call_model site inputs ;;
    match out with
    | Single outputs =>
        loss_ <- call_criterion site Primary criterion outputs labels ;;
        ret (loss_, outputs)
    | WithAux _ _ => raise TypeError
    end.

(** The body of [for inputs, labels in dataloaders[phase]].  Moving the
    batch to the device ([inputs.to(device)]) changes no value. *)
Definition batch_body (epoch : nat) (phase : Phase) (running : Q * Corrects)
    (batch : list image * list nat) : M World (Q * Corrects) :=
  let site := Some (epoch, phase) in
  let '(running_loss, running_corrects) := running in
  let '(inputs, labels) := batch in
  (* zero the parameter gradients *)
  call_zero_grad site ;;
  (* forward; track history if only in train *)
  '(loss_, preds) <-
    with_grad_enabled (Phase_eqb phase train)
      ('(loss_, outputs) <- forward_loss site phase inputs labels ;;
       let preds := torch_max1 outputs in
       (* backward + optimize only if in training phase *)
       (if Phase_eqb phase train then
          call_backward site loss_ ;;
          call_step site
        else ret tt) ;;
       ret (loss_, preds)) ;;
  (* statistics *)
  let running_loss :=
    (running_loss
     + loss_item loss_ * inject_Z (Z.of_nat (List.length inputs)))%Q in
  hits <- lift (tensor_eq preds labels) ;;
  let running_corrects := add_corrects running_corrects (tensor_sum hits) in
  ret (running_loss, running_corrects).

(** The body of [for phase in ['train', 'val']]. *)
Definition phase_body (epoch : nat) (loc : Locals) (phase : Phase)
  : M World Locals :=
  let site := Some (epoch, phase) in
  (if Phase_eqb phase train then
     call_train_mode site true    (* Set model to training mode *)
   else
     call_train_mode site false)  (* Set model to evaluate mode *) ;;
  (* Iterate over data. *)
  '(running_loss, running_corrects) <-
    for_each (batches (dataloaders phase) epoch) (batch_body epoch phase)
             (0%Q, IntZero) ;;
  epoch_loss <- lift (float_div running_loss (dataset_len (dataloaders phase))) ;;
  epoch_acc <- lift (accuracy running_corrects (dataset_len (dataloaders phase))) ;;
  say (LPhase phase epoch_loss epoch_acc) ;;
  (* deep copy the model *)
  loc <- (if Phase_eqb phase val && Qgt_bool epoch_acc (best_acc loc) then
            emit site CallDeepCopy ;;
            wts <- gets (fun w => deepcopy (state_dict (model w))) ;;
            ret (mkLocals epoch_acc wts (val_acc_history loc))
          else ret loc) ;;
  if Phase_eqb phase val then
    ret (mkLocals (best_acc loc) (best_model_wts loc)
                  (val_acc_history loc ++ [epoch_acc]))
  else ret loc.

(** The body of [for epoch in range(num_epochs)]. *)
Definition epoch_body (loc : Locals) (epoch : nat) : M World Locals :=
  say (LEpoch epoch (Z.of_nat num_epochs - 1)) ;;
  say (LText "----------") ;;
  (* Each epoch has a training and validation phase *)
  loc <- for_each [train; val] (phase_body epoch) loc ;;
  say (LText "") ;;
  ret loc.

(** The arguments [model] and [optimizer] are references to objects the
    function mutates: they are the [model] and [optimizer] of the world.
    The model returned is that same object, read back at the end.  The
    wall-clock time the function measures is only printed; the line is
    kept without it. *)
Definition train_model : M World (Module * list Q) :=
  emit None CallDeepCopy ;;
  wts <- gets (fun w => deepcopy (state_dict (model w))) ;;
  loc <- for_each (seq 0 num_epochs) epoch_body (mkLocals 0%Q wts []) ;;
  say LComplete ;;
  say (LBest (best_acc loc)) ;;
  (* load best model weights *)
  call_load_state_dict (best_model_wts loc) ;;
  m <- gets model ;;
  ret (m, val_acc_history loc).

End TrainModel.

(** ** The cells that run the transfer-learning experiment *)

(** What is live between cells besides the objects bound to names: the
    grad mode, the record of framework calls and the console. *)
Record Session : Type := mkSession {
  s_grad_enabled : bool;
  s_calls : list Event;
  s_stdout : Console
}.

Definition in_console {A} (c : M Console A) : M Session A :=
  fun s => let (r, out) := c (s_stdout s) in
           (r, mkSession (s_grad_enabled s) (s_calls s) out).

(** Run a computation on the world made of the session and the two
    objects it is handed. *)
Definition with_objects {A} (m : Module) (o : optim) (c : M World A)
  : M Session A :=
  fun s =>
    let (r, w) := c (mkWorld m o (s_grad_enabled s) (s_calls s) (s_stdout s)) in
    (r, mkSession (grad_enabled w) (calls w) (stdout w)).

(** [[
params_to_update = model_ft.parameters()
if feature_extract:
    params_to_update = []
    for name,param in model_ft.named_parameters():
        if param.requires_grad == True:
            params_to_update.append(param)
]]
    Parameters are given by name. *)
Definition params_to_update (model_ft : Module) (feature_extract : bool)
  : list string :=
  if feature_extract then
    map fst (filter (fun np => requires_grad (snd np)) (named_parameters model_ft))
  else map fst (named_parameters model_ft).

(** The names printed under ["Params to learn:"]. *)
Definition params_to_learn (model_ft : Module) : list string :=
  map fst (filter (fun np => requires_grad (snd np)) (named_parameters model_ft)).

(** From [initialize_model] to the end of the first [train_model].  The
    data loaders are built by the framework from the input size. *)
Definition notebook (model_name : string) (num_classes : Z) (num_epochs : nat)
    (feature_extract : bool)
    (dataloaders_dict : Z -> Phase -> DataLoader)
    (criterion : logits -> list nat -> loss) : M Session (Module * list Q) :=
  (* Initialize the model for this run *)
  '(model_ft, input_size) <-
    in_console (initialize_model model_name num_classes feature_extract true) ;;
  in_console (print (LModel model_ft)) ;;
  in_console (print (LText "Initializing Datasets and Dataloaders...")) ;;
  in_console (print (LText "Params to learn:")) ;;
  for_each (params_to_learn model_ft)
           (fun _ name => in_console (print (LText name))) tt ;;
  let optimizer_ft :=
    optim_SGD (params_to_update model_ft feature_extract)
              (1 # 1000)%Q (9 # 10)%Q in
  (* Train and evaluate *)
  with_objects model_ft optimizer_ft
    (train_model (dataloaders_dict input_size) criterion num_epochs
                 (String.eqb model_name "inception")).

End Torch.

(** ** The decision table of the adapter, for stating its properties *)

Section Families.
Context {TL : TensorLib} {TV : Torchvision}.

(** The six names [initialize_model] recognises. *)
Definition supported : list string :=
  ["resnet"; "alexnet"; "vgg"; "squeezenet"; "densenet"; "inception"]%string.

(** The constructor each branch calls. *)
Definition loaded (model_name : string) (use_pretrained : bool) : Module :=
  if String.eqb model_name "resnet" then resnet18 use_pretrained
  else if String.eqb model_name "alexnet" then alexnet use_pretrained
  else if String.eqb model_name "vgg" then vgg11_bn use_pretrained
  else if String.eqb model_name "squeezenet" then squeezenet1_0 use_pretrained
  else if String.eqb model_name "densenet" then densenet121 use_pretrained
  else inception_v3 use_pretrained.

(** The path(s) each branch assigns a new layer to, in assignment order. *)
Definition heads (model_name : string) : list string :=
  (if String.eqb model_name "resnet" then ["fc"]
   else if String.eqb model_name "alexnet" then ["classifier.6"]
   else if String.eqb model_name "vgg" then ["classifier.6"]
   else if String.eqb model_name "squeezenet" then ["classifier.1"]
   else if String.eqb model_name "densenet" then ["classifier"]
   else if String.eqb model_name "inception" then ["AuxLogits.fc"; "fc"]
   else [])%string.

Definition in_width (l : Layer) : option Z :=
  match kind l with
  | Linear i _ => Some i
  | Conv2d i _ _ _ => Some i
  | OtherLayer => None
  end.

Definition out_width (l : Layer) : option Z :=
  match kind l with
  | Linear _ o => Some o
  | Conv2d _ o _ _ => Some o
  | OtherLayer => None
  end.

Definition is_linear (l : Layer) : bool :=
  match kind l with Linear _ _ => true | _ => false end.

Definition is_conv (l : Layer) : bool :=
  match kind l with Conv2d _ _ _ _ => true | _ => false end.

(** What the notebook says of the models it loads: the layer found at each
    head.  The five Linear heads have some non-negative input width; the
    squeezenet head is a convolution with 512 input channels. *)
Definition head_shape (model_name : string) (l : Layer) : Prop :=
  if String.eqb model_name "squeezenet" then
    is_conv l = true /\ in_width l = Some 512%Z
  else
    is_linear l = true /\ exists k, in_width l = Some k /\ (0 <= k)%Z.

Definition zoo_shape : Prop :=
  forall model_name use_pretrained path,
    In model_name supported ->
    In path (heads model_name) ->
    exists l,
      lookup path (layers (loaded model_name use_pretrained)) = Some l /\
      head_shape model_name l.

(** A loaded model has every parameter trainable. *)
Definition zoo_trainable : Prop :=
  forall model_name use_pretrained p,
    In model_name supported ->
    In p (parameters (loaded model_name use_pretrained)) ->
    requires_grad p = true.

(** The layer a branch creates for a head whose old layer is [old]. *)
Definition new_head (model_name : string) (num_classes : Z) (old : Layer)
  : Layer :=
  if String.eqb model_name "squeezenet" then
    mkLayer (Conv2d 512 num_classes (1, 1)%Z (1, 1)%Z)
      [("weight"%string, new_param [num_classes; 512; 1; 1]%Z);
       ("bias"%string, new_param [num_classes])]
  else
    match in_width old with
    | Some k =>
        mkLayer (Linear k num_classes)
          [("weight"%string, new_param [num_classes; k]);
           ("bias"%string, new_param [num_classes])]
    | None => mkLayer OtherLayer []
    end.

Definition trainable (np : string * Param) : bool := requires_grad (snd np).

(** What [set_parameter_requires_grad] makes of a layer. *)
Definition thaw_or_freeze (feature_extract : bool) (l : Layer) : Layer :=
  if feature_extract then freeze_layer l else l.

(** The table of layers after the heads have been reassigned one after
    the other, each new layer being made from the layer found there. *)
Definition reshaped (make : Layer -> Layer) (paths : list string)
    (ls : list (string * Layer)) : list (string * Layer) :=
  fold_left (fun ls path =>
               match lookup path ls with
               | Some old => assign path (make old) ls
               | None => ls
               end) paths ls.

(** The model a successful call of [initialize_model] returns. *)
Definition adapted (model_name : string) (num_classes : Z)
    (feature_extract use_pretrained : bool) : Module :=
  let base :=
    set_parameter_requires_grad (loaded model_name use_pretrained)
                                feature_extract in
  mkModule (reshaped (new_head model_name num_classes) (heads model_name)
                     (layers base))
           (training base)
           (if String.eqb model_name "squeezenet" then Some num_classes
            else num_classes_attr base).

(** The input size each branch sets. *)
Definition resolution (model_name : string) : Z :=
  if String.eqb model_name "inception" then 299%Z else 224%Z.

End Families.

(** ** What the training loop expects of its collaborators *)

Section Contracts.
Context {TL : TensorLib} {FW : Framework}.

(** The structure of a model: its layer paths and their parameter names.
    Training changes tensors, never the structure. *)
Definition skeleton (m : Module) : list (string * list string) :=
  map (fun pl => (fst pl, map fst (params (snd pl)))) (layers m).

Definition same_module_shape (m m' : Module) : Prop :=
  skeleton m' = skeleton m /\ training m' = training m.

Definition primary {L} (out : Output L) : L :=
  match out with
  | Single outputs => outputs
  | WithAux outputs _ => outputs
  end.

Definition has_aux_output {L} (out : Output L) : bool :=
  match out with
  | Single _ => false
  | WithAux _ _ => true
  end.

(** The contract of the framework for a model shaped like [m0]: its calls
    keep the structure and the mode of the model; the model answers with
    one row of outputs per input, and with the auxiliary outputs exactly
    when it is the two-headed network in training mode. *)
Record framework_laws (m0 : Module) (is_inception : bool) : Prop := {
  forward_keeps : forall g m x, same_module_shape m (fst (forward g m x));
  backward_keeps : forall l m, same_module_shape m (backward l m);
  zero_grad_keeps : forall o m, same_module_shape m (zero_grad o m);
  step_keeps : forall o m, same_module_shape m (snd (step o m));
  forward_rows : forall g m x,
    skeleton m = skeleton m0 ->
    List.length (torch_max1 (primary (snd (forward g m x)))) = List.length x;
  forward_aux : forall g m x,
    skeleton m = skeleton m0 ->
    has_aux_output (snd (forward g m x)) = is_inception && training m
}.

(** The contract of a data loader over the epochs of a run: a non-empty
    dataset, at least one batch per traversal, as many labels as inputs
    in a batch, and no more samples in a traversal than the dataset
    holds. *)
Definition loader_ok (num_epochs : nat) (d : DataLoader) : Prop :=
  forall e, e < num_epochs ->
    0 < dataset_len d /\
    batches d e <> [] /\
    Forall (fun b => List.length (fst b) = List.length (snd b)) (batches d e) /\
    list_sum (map (fun b => List.length (fst b)) (batches d e)) <= dataset_len d.

(** The keys of a state dictionary are pairwise distinct. *)
Definition distinct_keys (m : Module) : Prop :=
  NoDup (map fst (state_dict m)).

(** The run interrupted after its first [k] epochs: the prefix of
    [train_model] up to there, with the local variables it has then. *)
Definition after_epochs (dataloaders : Phase -> DataLoader)
    (criterion : logits -> list nat -> loss) (num_epochs : nat)
    (is_inception : bool) (k : nat) : M World Locals :=
  emit None CallDeepCopy ;;
  wts <- gets (fun w => deepcopy (state_dict (model w))) ;;
  for_each (seq 0 k) (epoch_body dataloaders criterion num_epochs is_inception)
           (mkLocals 0%Q wts []).

(** The calls that open a phase. *)
Definition is_mode_call (ev : Event) : bool :=
  match snd ev with
  | CallTrain | CallEval => true
  | _ => false
  end.

Definition phase_starts (num_epochs : nat) : list Event :=
  flat_map (fun e => [(Some (e, train), CallTrain); (Some (e, val), CallEval)])
           (seq 0 num_epochs).

(** What a validation phase may call: no backward pass, no optimizer
    step, no criterion on the auxiliary outputs, and the forward pass
    with gradients disabled. *)
Definition val_call_ok (c : Call) : bool :=
  match c with
  | CallEval | CallZeroGrad | CallForward false | CallCriterion Primary
  | CallDeepCopy => true
  | _ => false
  end.

Definition val_event_ok (ev : Event) : bool :=
  match fst ev with
  | Some (_, val) => val_call_ok (snd ev)
  | _ => true
  end.

End Contracts.

(** ** A small instance of the interfaces

    Tensors are integers, a model predicts the class
    [(image + sum of its weights) mod 2] for every image, the loss is a
    rational and the optimizer adds one to each parameter it holds and
    counts its steps.  It serves to run the definitions on concrete
    inputs. *)

Module Sample.

#[export] Instance tensors : TensorLib := {|
  tensor := Z;
  init_tensor := fun _ => 0%Z
|}.

Definition pretrained_param (v : Z) : Param := mkParam v None true.

Definition backbone (pretrained : bool) : string * Layer :=
  ("features.0"%string,
   mkLayer OtherLayer
     [("weight"%string, pretrained_param (if pretrained then 3 else 0)%Z)]).

Definition linear (i o : Z) : Layer :=
  mkLayer (Linear i o)
    [("weight"%string, pretrained_param 1); ("bias"%string, pretrained_param 0)].

Definition conv (i o : Z) : Layer :=
  mkLayer (Conv2d i o (1, 1)%Z (1, 1)%Z)
    [("weight"%string, pretrained_param 1); ("bias"%string, pretrained_param 0)].

(** The final layers are those the notebook prints for each model. *)
#[export] Instance zoo : Torchvision := {|
  resnet18 := fun p =>
    mkModule [backbone p; ("fc"%string, linear 512 1000)] true None;
  alexnet := fun p =>
    mkModule [backbone p; ("classifier.1"%string, linear 9216 4096);
              ("classifier.4"%string, linear 4096 4096);
              ("classifier.6"%string, linear 4096 1000)] true None;
  vgg11_bn := fun p =>
    mkModule [backbone p; ("classifier.0"%string, linear 25088 4096);
              ("classifier.3"%string, linear 4096 4096);
              ("classifier.6"%string, linear 4096 1000)] true None;
  squeezenet1_0 := fun p =>
    mkModule [backbone p; ("classifier.1"%string, conv 512 1000)]
             true (Some 1000%Z);
  densenet121 := fun p =>
    mkModule [backbone p; ("classifier"%string, linear 1024 1000)] true None;
  inception_v3 := fun p =>
    mkModule [backbone p; ("AuxLogits.fc"%string, linear 768 1000);
              ("fc"%string, linear 2048 1000)] true None
|}.

Definition weight_sum (m : Module) : Z :=
  fold_right Z.add 0%Z (map snd (state_dict m)).

Definition predict (m : Module) (img : nat) : nat :=
  Nat.modulo (img + Z.to_nat (weight_sum m)) 2.

Definition has_aux (m : Module) : bool :=
  match lookup "AuxLogits.fc" (layers m) with Some _ => true | None => false end.

Definition map_params (f : string -> Param -> Param) (m : Module) : Module :=
  mkModule
    (map (fun pl =>
            (fst pl,
             mkLayer (kind (snd pl))
               (map (fun np => (fst np, f (child (fst pl) (fst np)) (snd np)))
                    (params (snd pl)))))
         (layers m))
    (training m) (num_classes_attr m).

Record sgd : Type := mkSgd { held : list string; steps : nat }.

#[export] Instance framework : Framework := {|
  image := nat;
  logits := list nat;
  loss := Q;
  optim := sgd;
  forward := fun _ m inputs =>
    let out := map (predict m) inputs in
    (m, if training m && has_aux m then WithAux out out else Single out);
  loss_add := Qplus;
  loss_scale := Qmult;
  loss_item := fun l => l;
  backward := fun _ m =>
    map_params (fun _ p =>
                  if requires_grad p
                  then mkParam (data p) (Some 1%Z) true else p) m;
  torch_max1 := fun out => out;
  zero_grad := fun o m =>
    map_params (fun n p =>
                  if mem n (held o)
                  then mkParam (data p) None (requires_grad p) else p) m;
  step := fun o m =>
    (mkSgd (held o) (S (steps o)),
     map_params (fun n p =>
                   match grad p with
                   | Some g =>
                       if mem n (held o)
                       then mkParam (data p + g)%Z (grad p) (requires_grad p)
                       else p
                   | None => p
                   end) m);
  optim_SGD := fun names _ _ => mkSgd names 0
|}.

(** The number of wrong predictions, as a loss. *)
Definition errors (outputs : list nat) (labels : list nat) : Q :=
  inject_Z (Z.of_nat (List.length
    (filter (fun xy => negb (Nat.eqb (fst xy) (snd xy))) (combine outputs labels)))).

(** Two images per partition, in one batch; the validation labels are a
    parameter. *)
Definition loaders (val_labels : list nat) (phase : Phase) : DataLoader :=
  match phase with
  | train => mkLoader 2 (fun _ => [([0; 1], [0; 1])])
  | val => mkLoader 2 (fun _ => [([0; 0], val_labels)])
  end.

(** A one-layer model whose optimizer holds the weight only. *)
Definition tiny : Module :=
  mkModule [("fc"%string, linear 1 2)] true None.

Definition start (m : Module) (held : list string) : World :=
  mkWorld m (mkSgd held 0) true [] [].

Definition empty_session : Session := mkSession true [] [].

End Sample.

(** * Properties of the adapter *)

Section AssocLists.
Context {A : Type}.
Implicit Types (l : list (string * A)) (k : string) (v : A).

Lemma lookup_assign_same k v l : lookup k (assign k v l) = Some v.
Proof.
  induction l as [|[k' v'] l IH]; simpl.
  - now rewrite String.eqb_refl.
  - destruct (String.eqb k' k) eqn:E; simpl; rewrite E; auto.
Qed.

Lemma lookup_assign_other k k' v l :
  k' <> k -> lookup k' (assign k v l) = lookup k' l.
Proof.
  intros Hne. induction l as [|[k0 v0] l IH]; simpl.
  - destruct (String.eqb_spec k k'); congruence.
  - destruct (String.eqb_spec k0 k); simpl.
    + subst k0. destruct (String.eqb_spec k k'); congruence.
    + now rewrite IH.
Qed.

Lemma in_assign_inv k v k' v' l :
  In (k', v') (assign k v l) -> (k' = k /\ v' = v) \/ In (k', v') l.
Proof.
  induction l as [|[k0 v0] l IH]; simpl.
  - intros [E|[]]. inversion E. auto.
  - destruct (String.eqb_spec k0 k); simpl.
    + intros [E|H]; [inversion E; subst; auto | auto].
    + intros [E|H]; [auto | destruct (IH H); auto].
Qed.

Lemma in_assign_new k v l : In (k, v) (assign k v l).
Proof.
  induction l as [|[k0 v0] l IH]; simpl; auto.
  destruct (String.eqb_spec k0 k); simpl; subst; auto.
Qed.

Lemma in_assign_keep k v k' v' l :
  k' <> k -> In (k', v') l -> In (k', v') (assign k v l).
Proof.
  intros Hne. induction l as [|[k0 v0] l IH]; simpl; [tauto|].
  destruct (String.eqb_spec k0 k); simpl.
  - intros [E|H]; [inversion E; subst; congruence | auto].
  - intros [E|H]; auto.
Qed.

Lemma lookup_in k v l : lookup k l = Some v -> In (k, v) l.
Proof.
  induction l as [|[k0 v0] l IH]; simpl; [discriminate|].
  destruct (String.eqb_spec k0 k); [|auto].
  intros E. inversion E. subst. auto.
Qed.

Lemma lookup_map_values (f : A -> A) k l :
  lookup k (map (fun kv => (fst kv, f (snd kv))) l) = option_map f (lookup k l).
Proof.
  induction l as [|[k0 v0] l IH]; simpl; auto.
  destruct (String.eqb k0 k); auto.
Qed.

End AssocLists.

Section Reshaped.
Context {TL : TensorLib}.
Variable make : Layer -> Layer.

(** Reassigning pairwise distinct heads: what is found under a key
    afterwards, and where an entry of the result comes from. *)
Lemma reshaped_other paths : forall ls k,
  ~ In k paths -> lookup k (reshaped make paths ls) = lookup k ls.
Proof.
  induction paths as [|p paths IH]; simpl; intros ls k Hk; auto.
  rewrite IH by tauto.
  destruct (lookup p ls); auto.
  apply lookup_assign_other. intros ->. tauto.
Qed.

Lemma reshaped_head paths : forall ls k old,
  NoDup paths -> In k paths -> lookup k ls = Some old ->
  lookup k (reshaped make paths ls) = Some (make old).
Proof.
  induction paths as [|p paths IH]; simpl; intros ls k old Hnd Hin Hold.
  - destruct Hin.
  - inversion Hnd; subst. destruct Hin as [->|Hin].
    + rewrite reshaped_other by assumption.
      rewrite Hold. apply lookup_assign_same.
    + apply IH; auto.
      destruct (lookup p ls); auto.
      rewrite lookup_assign_other; auto. intros ->. tauto.
Qed.

Lemma reshaped_in_head paths : forall ls k old,
  NoDup paths -> In k paths -> lookup k ls = Some old ->
  In (k, make old) (reshaped make paths ls).
Proof.
  intros. apply lookup_in. now apply reshaped_head.
Qed.

Lemma reshaped_in_inv paths : forall ls k l,
  NoDup paths ->
  In (k, l) (reshaped make paths ls) ->
  (In k paths /\ exists old, lookup k ls = Some old /\ l = make old)
  \/ In (k, l) ls.
Proof.
  induction paths as [|p paths IH]; simpl; intros ls k l Hnd H; auto.
  inversion Hnd as [|? ? Hp Hnd']; subst.
  apply IH in H; auto. destruct H as [[Hk (old & Ho & Hl)]|H].
  - left. split; auto. exists old. split; auto.
    destruct (lookup p ls); auto.
    rewrite lookup_assign_other in Ho; auto. intros ->. tauto.
  - destruct (lookup p ls) as [old|] eqn:E; auto.
    apply in_assign_inv in H. destruct H as [[-> ->]|H]; auto.
    left. split; [now left|]. exists old. auto.
Qed.

End Reshaped.

Section AdapterFacts.
Context {TL : TensorLib} {TV : Torchvision}.

Lemma kind_thaw_or_freeze fe l : kind (thaw_or_freeze fe l) = kind l.
Proof. now destruct fe. Qed.

Lemma lookup_base m fe path :
  lookup path (layers (set_parameter_requires_grad m fe))
  = option_map (thaw_or_freeze fe) (lookup path (layers m)).
Proof.
  destruct fe; simpl.
  - apply (lookup_map_values freeze_layer).
  - now destruct (lookup path (layers m)).
Qed.

Lemma nn_Linear_ok i o :
  (0 <= i)%Z -> (0 <= o)%Z ->
  nn_Linear i o
  = inr (mkLayer (Linear i o)
           [("weight"%string, new_param [o; i]);
            ("bias"%string, new_param [o])]).
Proof.
  intros Hi Ho. unfold nn_Linear.
  destruct (Z.ltb_spec i 0); [lia|]. destruct (Z.ltb_spec o 0); [lia|].
  reflexivity.
Qed.

Lemma linear_kind l :
  is_linear l = true -> forall k, in_width l = Some k ->
  exists o, kind l = Linear k o.
Proof.
  unfold is_linear, in_width. destruct (kind l); try discriminate.
  intros _ k E. inversion E. eauto.
Qed.

Lemma reshape_attr_linear m path nc old k o :
  lookup path (layers m) = Some old -> kind old = Linear k o ->
  (0 <= k)%Z -> (0 <= nc)%Z ->
  reshape_attr m path nc
  = inr (setattr m path
           (mkLayer (Linear k nc)
              [("weight"%string, new_param [nc; k]);
               ("bias"%string, new_param [nc])])).
Proof.
  intros Hl Hk Hk0 Hnc. unfold reshape_attr, getattr, in_features_of.
  rewrite Hl, Hk, nn_Linear_ok by assumption. reflexivity.
Qed.

Lemma reshape_item_linear m seq idx nc old k o :
  lookup (child seq idx) (layers m) = Some old -> kind old = Linear k o ->
  (0 <= k)%Z -> (0 <= nc)%Z ->
  reshape_item m seq idx nc
  = inr (setattr m (child seq idx)
           (mkLayer (Linear k nc)
              [("weight"%string, new_param [nc; k]);
               ("bias"%string, new_param [nc])])).
Proof.
  intros Hl Hk Hk0 Hnc. unfold reshape_item, getitem, in_features_of, setitem.
  rewrite Hl, Hk, nn_Linear_ok by assumption. reflexivity.
Qed.

(** The head found in a loaded model, after the optional freezing. *)
Lemma head_of_base name up fe path :
  zoo_shape -> In name supported -> In path (heads name) ->
  exists old,
    lookup path (layers (loaded name up)) = Some old /\
    lookup path (layers (set_parameter_requires_grad (loaded name up) fe))
    = Some (thaw_or_freeze fe old) /\
    head_shape name old.
Proof.
  intros Hz Hn Hp. destruct (Hz name up path Hn Hp) as (old & Hl & Hs).
  exists old. rewrite lookup_base, Hl. auto.
Qed.

Lemma new_head_linear name nc fe old k o :
  String.eqb name "squeezenet" = false -> kind old = Linear k o ->
  new_head name nc (thaw_or_freeze fe old)
  = mkLayer (Linear k nc)
      [("weight"%string, new_param [nc; k]); ("bias"%string, new_param [nc])].
Proof.
  intros Hn Hk. unfold new_head, in_width.
  now rewrite Hn, kind_thaw_or_freeze, Hk.
Qed.

Lemma run_lift_ret {S A B} (r : Exc + A) (f : A -> B) (s : S) :
  (x <- lift r ;; ret (f x)) s
  = (match r with inr a => inr (f a) | inl e => inl e end, s).
Proof. unfold bind, lift, ret. now destruct r. Qed.

Ltac linear_head Hheads path :=
  let old := fresh "old" in
  let Hb := fresh "Hb" in
  let Hlin := fresh "Hlin" in
  let k := fresh "k" in
  let Hw := fresh "Hw" in
  let Hk := fresh "Hk" in
  let o := fresh "o" in
  let Hkind := fresh "Hkind" in
  destruct (Hheads path) as (old & _ & Hb & Hlin & k & Hw & Hk);
  [simpl; auto|];
  destruct (linear_kind _ Hlin Hw) as (o & Hkind).

Lemma initialize_model_adapted name nc fe up out :
  In name supported -> zoo_shape -> (0 < nc)%Z ->
  initialize_model name nc fe up out
  = (inr (adapted name nc fe up, resolution name), out).
Proof.
  intros Hn Hz Hnc.
  assert (Hheads : forall path, In path (heads name) ->
            exists old, lookup path (layers (loaded name up)) = Some old /\
              lookup path (layers (set_parameter_requires_grad (loaded name up) fe))
              = Some (thaw_or_freeze fe old) /\ head_shape name old)
    by (intros; now apply head_of_base).
  unfold supported in Hn. simpl in Hn.
  destruct Hn as [<-|[<-|[<-|[<-|[<-|[<-|[]]]]]]].
  - linear_head Hheads "fc"%string.
    unfold initialize_model, adapted, resolution, reshaped, loaded in *.
    simpl in *. rewrite Hb, run_lift_ret.
    erewrite reshape_attr_linear, new_head_linear;
      eauto; rewrite ?kind_thaw_or_freeze; eauto; lia.
  - linear_head Hheads "classifier.6"%string.
    unfold initialize_model, adapted, resolution, reshaped, loaded in *.
    simpl in *. rewrite Hb, run_lift_ret.
    erewrite (@reshape_item_linear _ "classifier" "6"), new_head_linear;
      eauto; rewrite ?kind_thaw_or_freeze; eauto; lia.
  - linear_head Hheads "classifier.6"%string.
    unfold initialize_model, adapted, resolution, reshaped, loaded in *.
    simpl in *. rewrite Hb, run_lift_ret.
    erewrite (@reshape_item_linear _ "classifier" "6"), new_head_linear;
      eauto; rewrite ?kind_thaw_or_freeze; eauto; lia.
  - destruct (Hheads "classifier.1"%string) as (old & _ & Hb & _);
      [simpl; auto|].
    unfold initialize_model, adapted, resolution, reshaped, loaded in *.
    simpl in *. rewrite Hb.
    unfold bind, lift, ret, nn_Conv2d, setitem. simpl.
    destruct (Z.ltb_spec nc 0); [lia|]. simpl.
    change (child "classifier" "1") with "classifier.1"%string.
    rewrite Hb. reflexivity.
  - linear_head Hheads "classifier"%string.
    unfold initialize_model, adapted, resolution, reshaped, loaded in *.
    simpl in *. rewrite Hb, run_lift_ret.
    erewrite reshape_attr_linear, new_head_linear;
      eauto; rewrite ?kind_thaw_or_freeze; eauto; lia.
  - linear_head Hheads "AuxLogits.fc"%string.
    linear_head Hheads "fc"%string.
    unfold initialize_model, adapted, resolution, reshaped, loaded in *.
    simpl in *. rewrite Hb.
    erewrite (reshape_attr_linear _ _ Hb) by
      (rewrite ?kind_thaw_or_freeze; eauto; lia).
    unfold bind at 1. unfold lift at 1.
    rewrite run_lift_ret.
    erewrite new_head_linear by eauto.
    rewrite lookup_assign_other by discriminate. rewrite Hb0.
    erewrite (@reshape_attr_linear _ "fc" nc (thaw_or_freeze fe old0) k0 o0);
      [ | simpl; rewrite lookup_assign_other by discriminate; exact Hb0
        | now rewrite kind_thaw_or_freeze | lia | lia ].
    erewrite new_head_linear by eauto. reflexivity.
Qed.

Lemma heads_nodup name : NoDup (heads name).
Proof.
  unfold heads.
  repeat (match goal with |- context [if ?b then _ else _] => destruct b end;
          [repeat constructor; simpl; intuition discriminate|]).
  constructor.
Qed.

Lemma new_head_thaw name nc fe l :
  new_head name nc (thaw_or_freeze fe l) = new_head name nc l.
Proof.
  unfold new_head, in_width. rewrite kind_thaw_or_freeze.
  reflexivity.
Qed.

Lemma new_head_widths name nc old :
  head_shape name old ->
  out_width (new_head name nc old) = Some nc /\
  in_width (new_head name nc old) = in_width old.
Proof.
  unfold head_shape, new_head.
  destruct (String.eqb name "squeezenet").
  - intros [_ ->]. auto.
  - intros [_ (k & -> & _)]. auto.
Qed.

Lemma new_head_trainable name nc old n p :
  head_shape name old ->
  In (n, p) (params (new_head name nc old)) -> requires_grad p = true.
Proof.
  unfold head_shape, new_head.
  destruct (String.eqb name "squeezenet").
  - intros _ [E|[E|[]]]; inversion E; reflexivity.
  - intros [_ (k & -> & _)] [E|[E|[]]]; inversion E; reflexivity.
Qed.

Lemma frozen_not_trainable l n p :
  In (n, p) (params (freeze_layer l)) -> requires_grad p = false.
Proof.
  unfold freeze_layer. simpl. rewrite in_map_iff.
  intros ([n0 p0] & E & _). inversion E. reflexivity.
Qed.

Lemma in_named_parameters m n p :
  In (n, p) (named_parameters m) <->
  exists path l, In (path, l) (layers m) /\ In (n, p) (named_params_of path l).
Proof.
  unfold named_parameters. rewrite in_flat_map. split.
  - intros ([path l] & H1 & H2). eauto.
  - intros (path & l & H1 & H2). exists (path, l). auto.
Qed.

Lemma in_named_params_of path l n p :
  In (n, p) (named_params_of path l) ->
  exists n0, n = child path n0 /\ In (n0, p) (params l).
Proof.
  unfold named_params_of. rewrite in_map_iff.
  intros ([n0 p0] & E & H). inversion E. subst. eauto.
Qed.

(** Where a layer of the adapted model comes from. *)
Lemma adapted_layer_inv name nc fe up path l :
  In (path, l) (layers (adapted name nc fe up)) ->
  (In path (heads name) /\
   exists old, lookup path (layers (loaded name up)) = Some old /\
               l = new_head name nc old)
  \/ exists l0, In (path, l0) (layers (loaded name up)) /\
                l = thaw_or_freeze fe l0.
Proof.
  unfold adapted. simpl. intros H.
  apply reshaped_in_inv in H; [|apply heads_nodup].
  destruct H as [[H1 (old & H2 & ->)]|H].
  - left. split; auto. rewrite lookup_base in H2.
    destruct (lookup path (layers (loaded name up))) as [old0|];
      [|discriminate].
    inversion H2. exists old0. split; auto. apply new_head_thaw.
  - right. destruct fe; simpl in H.
    + apply in_map_iff in H. destruct H as ([p0 l0] & E & H).
      inversion E. subst. exists l0. auto.
    + eauto.
Qed.

Lemma adapted_head name nc fe up path old :
  In path (heads name) ->
  lookup path (layers (loaded name up)) = Some old ->
  lookup path (layers (adapted name nc fe up)) = Some (new_head name nc old).
Proof.
  intros Hin Hl. unfold adapted. simpl.
  erewrite reshaped_head;
    [ | apply heads_nodup | eassumption | rewrite lookup_base, Hl; reflexivity ].
  now rewrite new_head_thaw.
Qed.

Lemma adapted_elsewhere name nc fe up path :
  ~ In path (heads name) ->
  lookup path (layers (adapted name nc fe up))
  = option_map (thaw_or_freeze fe) (lookup path (layers (loaded name up))).
Proof.
  intros Hin. unfold adapted. simpl.
  rewrite reshaped_other by assumption. apply lookup_base.
Qed.

End AdapterFacts.

Section AdapterClaims.
Context {TL : TensorLib} {TV : Torchvision} {FW : Framework}.

Lemma head_shape_of name up path old :
  zoo_shape -> In name supported -> In path (heads name) ->
  lookup path (layers (loaded name up)) = Some old -> head_shape name old.
Proof.
  intros Hz Hn Hp Hl. destruct (Hz name up path Hn Hp) as (l & Hl' & Hs).
  congruence.
Qed.

Lemma new_head_names name nc old n :
  head_shape name old ->
  (exists p, In (n, p) (params (new_head name nc old))) <->
  (n = "weight" \/ n = "bias")%string.
Proof.
  unfold head_shape, new_head.
  destruct (String.eqb name "squeezenet").
  - intros _. simpl. split.
    + intros (p & [E|[E|[]]]); inversion E; auto.
    + intros [->| ->]; eexists; eauto.
  - intros [_ (k & -> & _)]. simpl. split.
    + intros (p & [E|[E|[]]]); inversion E; auto.
    + intros [->| ->]; eexists; eauto.
Qed.

(** C3: with [feature_extract] the trainable parameters of the returned
    model are exactly the parameters of the newly created head(s), every
    other layer being the loaded one with its parameters frozen; without
    it every parameter of the returned model is trainable (the loaded
    ones are, by the framework's default). *)
Theorem trainable_parameters name nc fe up out :
  In name supported -> zoo_shape -> (0 < nc)%Z ->
  exists m sz,
    initialize_model name nc fe up out = (inr (m, sz), out) /\
    (fe = true ->
       (forall n p,
          In (n, p) (filter trainable (named_parameters m)) <->
          exists path old,
            In path (heads name) /\
            lookup path (layers (loaded name up)) = Some old /\
            In (n, p) (named_params_of path (new_head name nc old))) /\
       (forall path,
          ~ In path (heads name) ->
          lookup path (layers m)
          = option_map freeze_layer (lookup path (layers (loaded name up)))) /\
       (forall n,
          In n (params_to_update m fe) <->
          exists path,
            In path (heads name) /\
            (n = child path "weight" \/ n = child path "bias"))) /\
    (fe = false ->
       zoo_trainable ->
       (forall p, In p (parameters m) -> requires_grad p = true) /\
       params_to_update m fe = map fst (named_parameters m)).
Proof.
  intros Hn Hz Hnc. exists (adapted name nc fe up), (resolution name).
  split; [now apply initialize_model_adapted|].
  assert (Hexact : fe = true -> forall n p,
            In (n, p) (filter trainable (named_parameters (adapted name nc fe up))) <->
            exists path old,
              In path (heads name) /\
              lookup path (layers (loaded name up)) = Some old /\
              In (n, p) (named_params_of path (new_head name nc old))).
  { intros -> n p. rewrite filter_In, in_named_parameters. split.
    - intros [(path & l & Hl & Hp) Ht].
      apply adapted_layer_inv in Hl.
      destruct Hl as [[Hh (old & Ho & ->)]|(l0 & _ & ->)]; eauto.
      apply in_named_params_of in Hp. destruct Hp as (n0 & _ & Hp).
      apply frozen_not_trainable in Hp. unfold trainable in Ht. simpl in Ht.
      congruence.
    - intros (path & old & Hh & Ho & Hp). split.
      + exists path, (new_head name nc old). split; auto.
        apply lookup_in. now apply adapted_head.
      + apply in_named_params_of in Hp. destruct Hp as (n0 & _ & Hp).
        unfold trainable. simpl.
        eapply new_head_trainable; [|exact Hp].
        eapply head_shape_of; eauto. }
  split.
  - intros ->. split; [now apply Hexact|]. split.
    + intros path Hp. now rewrite adapted_elsewhere.
    + intros n. unfold params_to_update. rewrite in_map_iff. split.
      * intros ([n' p] & <- & Hin). apply Hexact in Hin; auto.
        destruct Hin as (path & old & Hh & Ho & Hp).
        exists path. split; auto.
        apply in_named_params_of in Hp. destruct Hp as (n0 & -> & Hp).
        simpl. assert (Hs : head_shape name old) by (eapply head_shape_of; eauto).
        destruct (proj1 (@new_head_names name nc old n0 Hs)) as [->| ->]; eauto.
      * intros (path & Hh & Hname).
        destruct (Hz name up path Hn Hh) as (old & Ho & Hs).
        assert (Hex : exists n0 p, n = child path n0 /\
                        In (n0, p) (params (new_head name nc old))).
        { destruct Hname as [->| ->];
            [destruct (proj2 (@new_head_names name nc old "weight" Hs)) as (p & Hp);
               auto
            |destruct (proj2 (@new_head_names name nc old "bias" Hs)) as (p & Hp);
               auto];
            eauto. }
        destruct Hex as (n0 & p & -> & Hp).
        exists (child path n0, p). split; auto.
        apply Hexact; auto. exists path, old. repeat split; auto.
        unfold named_params_of. apply in_map_iff. exists (n0, p). auto.
  - intros -> Ht. split; [|reflexivity].
    intros p Hp. unfold parameters in Hp. apply in_map_iff in Hp.
    destruct Hp as ([n p'] & E & Hp). simpl in E. subst p'.
    apply in_named_parameters in Hp. destruct Hp as (path & l & Hl & Hp).
    apply adapted_layer_inv in Hl.
    destruct Hl as [[Hh (old & Ho & ->)]|(l0 & Hl0 & ->)].
    + apply in_named_params_of in Hp. destruct Hp as (n0 & _ & Hp).
      eapply new_head_trainable; [|exact Hp]. eapply head_shape_of; eauto.
    + simpl in Hp. apply (Ht name up p Hn).
      unfold parameters. apply in_map_iff. exists (n, p). split; auto.
      apply in_named_parameters. eauto.
Qed.

(** C4: a model name that is not one of the six makes [initialize_model]
    print its message and exit: no model is returned and nothing but the
    console has changed; the notebook ends there, before any call into the
    framework. *)
Theorem unsupported_family_exits name nc fe up out :
  ~ In name supported ->
  initialize_model name nc fe up out
  = (inl SystemExit, out ++ [LText "Invalid model name, exiting..."]) /\
  forall num_epochs dataloaders_dict criterion s,
    notebook name nc num_epochs fe dataloaders_dict criterion s
    = (inl SystemExit,
       mkSession (s_grad_enabled s) (s_calls s)
                 (s_stdout s ++ [LText "Invalid model name, exiting..."])).
Proof.
  intros Hn.
  assert (E : forall up' out',
             initialize_model name nc fe up' out'
             = (inl SystemExit, out' ++ [LText "Invalid model name, exiting..."])).
  { intros up' out'. unfold initialize_model, supported in *. simpl in Hn.
    repeat match goal with
           | |- context [String.eqb name ?s] =>
               destruct (String.eqb_spec name s); [exfalso; subst; tauto|]
           end.
    reflexivity. }
  split; [apply E|].
  intros. unfold notebook, bind at 1, in_console at 1. now rewrite E.
Qed.

(** C5: for each of the six names the returned model has, at every head
    of the family, a new layer with [num_classes] outputs and the input
    width of the layer it replaces; the two-headed family has both
    [AuxLogits.fc] and [fc] among its heads. *)
Theorem final_layers_resized name nc fe up out :
  In name supported -> zoo_shape -> (0 < nc)%Z ->
  exists m sz,
    initialize_model name nc fe up out = (inr (m, sz), out) /\
    heads name <> [] /\
    (forall path,
       In path (heads name) ->
       exists old new,
         lookup path (layers (loaded name up)) = Some old /\
         lookup path (layers m) = Some new /\
         new = new_head name nc old /\
         out_width new = Some nc /\
         in_width new = in_width old) /\
    (name = "inception"%string ->
     heads name = ["AuxLogits.fc"; "fc"]%string).
Proof.
  intros Hn Hz Hnc. exists (adapted name nc fe up), (resolution name).
  split; [now apply initialize_model_adapted|]. split; [|split].
  - unfold supported in Hn. simpl in Hn.
    destruct Hn as [<-|[<-|[<-|[<-|[<-|[<-|[]]]]]]]; discriminate.
  - intros path Hp. destruct (Hz name up path Hn Hp) as (old & Ho & Hs).
    exists old, (new_head name nc old).
    split; auto. split; [now apply adapted_head|]. split; auto.
    now apply new_head_widths.
  - intros ->. reflexivity.
Qed.

(** C6: the input size returned with the model is 299 for [inception]
    and 224 for the other five names. *)
Theorem input_size_by_family name nc fe up out :
  In name supported -> zoo_shape -> (0 < nc)%Z ->
  exists m sz,
    initialize_model name nc fe up out = (inr (m, sz), out) /\
    (sz = 299%Z <-> name = "inception"%string) /\
    (sz = 224%Z <-> name <> "inception"%string).
Proof.
  intros Hn Hz Hnc. exists (adapted name nc fe up), (resolution name).
  split; [now apply initialize_model_adapted|].
  unfold resolution. destruct (String.eqb_spec name "inception").
  - split; split; intros; auto; try discriminate. contradiction.
  - split; split; intros; auto; try discriminate. contradiction.
Qed.

End AdapterClaims.

(** * Properties of the training loop *)

(** ** What every computation preserves *)

Section Respects.
Context {S : Type}.
Variable R : S -> S -> Prop.
Hypothesis R_refl : forall s, R s s.
Hypothesis R_trans : forall s1 s2 s3, R s1 s2 -> R s2 s3 -> R s1 s3.

(** [c] takes every state to a state related to it, whether it returns
    or raises. *)
Definition respects {A} (c : M S A) : Prop := forall s, R s (snd (c s)).

Lemma respects_ret {A} (a : A) : respects (ret a).
Proof. intros s. apply R_refl. Qed.

Lemma respects_raise {A} e : respects (raise e : M S A).
Proof. intros s. apply R_refl. Qed.

Lemma respects_lift {A} (r : Exc + A) : respects (lift r).
Proof. intros s. apply R_refl. Qed.

Lemma respects_gets {A} (f : S -> A) : respects (gets f).
Proof. intros s. apply R_refl. Qed.

Lemma respects_modify f : (forall s, R s (f s)) -> respects (modify f).
Proof. intros H s. apply H. Qed.

Lemma respects_bind {A B} (c : M S A) (k : A -> M S B) :
  respects c -> (forall a, respects (k a)) -> respects (bind c k).
Proof.
  intros Hc Hk s. unfold bind. specialize (Hc s).
  destruct (c s) as [[e|a] s']; simpl in *; auto.
  eapply R_trans; [exact Hc|apply Hk].
Qed.

Lemma respects_for_each {A X} (body : A -> X -> M S A) l :
  (forall a x, respects (body a x)) -> forall acc, respects (for_each l body acc).
Proof.
  intros Hb. induction l as [|x l IH]; intros acc; simpl.
  - apply respects_ret.
  - apply respects_bind; auto.
Qed.

Lemma respects_if {A} (b : bool) (c1 c2 : M S A) :
  respects c1 -> respects c2 -> respects (if b then c1 else c2).
Proof. now destruct b. Qed.

End Respects.

(** ** Running a computation step by step *)

Lemma bind_ok {S A B} (c : M S A) (k : A -> M S B) s a s' :
  c s = (inr a, s') -> bind c k s = k a s'.
Proof. intros E. unfold bind. now rewrite E. Qed.

Lemma for_each_cons {S A X} (x : X) l (body : A -> X -> M S A) acc :
  for_each (x :: l) body acc = bind (body acc x) (for_each l body).
Proof. reflexivity. Qed.

Lemma for_each_app {S A X} (l1 l2 : list X) (body : A -> X -> M S A) :
  forall acc s,
    for_each (l1 ++ l2) body acc s
    = bind (for_each l1 body acc) (for_each l2 body) s.
Proof.
  induction l1 as [|x l1 IH]; intros acc s; simpl.
  - reflexivity.
  - unfold bind. destruct (body acc x s) as [[e|a] s']; auto.
Qed.

(** ** Pure facts: tensors, state dictionaries, rationals *)

Section PureFacts.
Context {TL : TensorLib}.

Lemma tensor_sum_le l : tensor_sum l <= List.length l.
Proof. unfold tensor_sum. apply filter_length_le. Qed.

Lemma tensor_eq_same_length a b :
  List.length a = List.length b ->
  exists hits, tensor_eq a b = inr hits /\ tensor_sum hits <= List.length b.
Proof.
  intros E. unfold tensor_eq. rewrite E, Nat.eqb_refl.
  eexists. split; [reflexivity|].
  eapply Nat.le_trans; [apply tensor_sum_le|].
  rewrite length_map, length_combine. lia.
Qed.

Lemma state_dict_keys m :
  map fst (state_dict m)
  = flat_map (fun pn => map (child (fst pn)) (snd pn)) (skeleton m).
Proof.
  unfold state_dict, named_parameters, skeleton.
  destruct m as [ls t a]. simpl. induction ls as [|[path l] ls IH]; simpl; auto.
  rewrite !map_app, IH. f_equal.
  unfold named_params_of. rewrite !map_map. reflexivity.
Qed.

Lemma same_skeleton_same_keys m m' :
  skeleton m' = skeleton m -> map fst (state_dict m') = map fst (state_dict m).
Proof. intros E. now rewrite !state_dict_keys, E. Qed.

Lemma mem_in k keys : In k keys -> mem k keys = true.
Proof.
  intros H. unfold mem. apply existsb_exists. exists k.
  split; auto. apply String.eqb_refl.
Qed.

Lemma no_stranger keys keys' :
  incl keys keys' -> filter (fun k => negb (mem k keys')) keys = [].
Proof.
  intros H. induction keys as [|k keys IH]; simpl; auto.
  rewrite mem_in by (apply H; now left). simpl.
  apply IH. intros x Hx. apply H. now right.
Qed.

Lemma lookup_first {A} k (v : A) l l' :
  ~ In k (map fst l) -> lookup k (l ++ (k, v) :: l') = Some v.
Proof.
  induction l as [|[k0 v0] l IH]; simpl; intros H.
  - now rewrite String.eqb_refl.
  - destruct (String.eqb_spec k0 k); [subst; tauto|]. apply IH. tauto.
Qed.

End PureFacts.

Section StateDicts.
Context {TL : TensorLib}.

Lemma data_copy_into sd k p :
  data (copy_into sd k p)
  = match lookup k sd with Some t => t | None => data p end.
Proof. unfold copy_into. now destruct (lookup k sd). Qed.

Lemma state_dict_loaded sd ls t a :
  state_dict
    (mkModule (map (fun pl => (fst pl, load_layer sd (fst pl) (snd pl))) ls) t a)
  = map (fun kp => (fst kp,
                    match lookup (fst kp) sd with
                    | Some v => v
                    | None => data (snd kp)
                    end))
        (named_parameters (mkModule ls t a)).
Proof.
  unfold state_dict, named_parameters. simpl.
  induction ls as [|[path l] ls IH]; simpl; auto.
  rewrite !map_app, IH. f_equal.
  unfold named_params_of, load_layer. simpl. rewrite !map_map. simpl.
  apply map_ext. intros [n p]. simpl. now rewrite data_copy_into.
Qed.

Lemma overwrite_all (sd : list (string * tensor)) :
  forall (nps : list (string * Param)) pre,
    map fst nps = map fst sd ->
    NoDup (map fst (pre ++ sd)) ->
    map (fun kp => (fst kp,
                    match lookup (fst kp) (pre ++ sd) with
                    | Some v => v
                    | None => data (snd kp)
                    end)) nps
    = sd.
Proof.
  induction sd as [|[k v] sd IH]; intros nps pre Hk Hnd.
  - destruct nps; [reflexivity|discriminate].
  - destruct nps as [|[k' p] nps]; [discriminate|].
    simpl in Hk. inversion Hk. subst k'. simpl. f_equal.
    + rewrite lookup_first; auto.
      rewrite map_app in Hnd. simpl in Hnd.
      apply NoDup_remove_2 in Hnd. rewrite in_app_iff in Hnd. tauto.
    + specialize (IH nps (pre ++ [(k, v)])).
      rewrite <- app_assoc in IH. simpl in IH. apply IH; auto.
Qed.

Lemma skeleton_loaded sd ls t a :
  skeleton
    (mkModule (map (fun pl => (fst pl, load_layer sd (fst pl) (snd pl))) ls) t a)
  = skeleton (mkModule ls t a).
Proof.
  unfold skeleton. simpl. rewrite map_map. apply map_ext.
  intros [path l]. simpl. now rewrite map_map.
Qed.

(** Loading a dictionary that has the keys of the model succeeds, and
    the model then holds exactly the values loaded. *)
Lemma load_state_dict_ok m sd :
  map fst sd = map fst (state_dict m) -> NoDup (map fst sd) ->
  exists m',
    load_state_dict m sd = inr m' /\
    state_dict m' = sd /\
    skeleton m' = skeleton m /\
    training m' = training m.
Proof.
  intros Hk Hnd. unfold load_state_dict. rewrite <- Hk.
  rewrite (no_stranger (incl_refl (map fst sd))).
  eexists. split; [reflexivity|]. destruct m as [ls t a]. split; [|split].
  - rewrite state_dict_loaded. apply (overwrite_all sd _ []); auto.
    rewrite Hk. unfold state_dict. now rewrite map_map.
  - apply skeleton_loaded.
  - reflexivity.
Qed.

End StateDicts.

(** ** The effects of a run on the world *)

Section Effects.
Context {TL : TensorLib} {FW : Framework}.

(** The calls recorded by a computation all satisfy [P]. *)
Definition calls_extend (P : Event -> Prop) (w w' : World) : Prop :=
  exists evs, calls w' = calls w ++ evs /\ Forall P evs.

(** A computation leaves a component of the world as it found it. *)
Definition keeps {X} (f : World -> X) (w w' : World) : Prop := f w' = f w.

Lemma world_ext (w1 w2 : World) :
  model w1 = model w2 -> optimizer w1 = optimizer w2 ->
  grad_enabled w1 = grad_enabled w2 -> calls w1 = calls w2 ->
  stdout w1 = stdout w2 -> w1 = w2.
Proof. destruct w1, w2. simpl. intros. now subst. Qed.

Lemma calls_extend_refl P w : calls_extend P w w.
Proof. exists []. split; [now rewrite app_nil_r|constructor]. Qed.

Lemma calls_extend_trans P w1 w2 w3 :
  calls_extend P w1 w2 -> calls_extend P w2 w3 -> calls_extend P w1 w3.
Proof.
  intros (e1 & H1 & F1) (e2 & H2 & F2). exists (e1 ++ e2).
  split; [now rewrite H2, H1, List.app_assoc|now apply Forall_app].
Qed.

Lemma keeps_refl {X} (f : World -> X) w : keeps f w w.
Proof. reflexivity. Qed.

Lemma keeps_trans {X} (f : World -> X) w1 w2 w3 :
  keeps f w1 w2 -> keeps f w2 w3 -> keeps f w1 w3.
Proof. unfold keeps. congruence. Qed.

Lemma same_module_shape_refl m : same_module_shape m m.
Proof. now split. Qed.

Lemma same_module_shape_trans m1 m2 m3 :
  same_module_shape m1 m2 -> same_module_shape m2 m3 -> same_module_shape m1 m3.
Proof. unfold same_module_shape. intros [] []. split; congruence. Qed.

Definition quiet_event (ev : Event) : Prop :=
  val_event_ok ev = true /\ is_mode_call ev = false.

Variable dataloaders : Phase -> DataLoader.
Variable criterion : logits -> list nat -> loss.
Variable num_epochs : nat.
Variable is_inception : bool.

Ltac run_prims :=
  unfold batch_body, forward_loss, with_grad_enabled, call_train_mode,
    call_zero_grad, call_model, call_criterion, call_backward, call_step,
    say, emit, on_console, print, modify, gets, lift, ret, raise, bind.

Ltac new_calls :=
  unfold calls_extend; eexists; split;
  [ simpl; rewrite <- ?List.app_assoc; simpl;
    first [reflexivity | symmetry; apply app_nil_r]
  | repeat constructor ].

(** One batch, whatever its outcome: the grad mode is restored, the
    console is untouched, only calls allowed at its site are made, and a
    validation batch leaves the optimizer alone. *)
Lemma batch_body_effects epoch phase running batch w :
  let w' := snd (batch_body criterion is_inception epoch phase running batch w) in
  grad_enabled w' = grad_enabled w /\
  stdout w' = stdout w /\
  calls_extend quiet_event w w' /\
  (phase = val -> optimizer w' = optimizer w).
Proof.
  destruct running as [rl rc], batch as [inputs labels].
  destruct phase; run_prims; simpl.
  - destruct is_inception; simpl;
      destruct (forward true _ inputs) as [m2 [o|o a]]; simpl;
      try destruct (step _ _) as [o' m4]; simpl;
      try destruct (tensor_eq _ labels); simpl;
      (split; [reflexivity|split; [reflexivity|split; [new_calls|discriminate]]]).
  - rewrite andb_false_r. simpl.
    destruct (forward false _ inputs) as [m2 [o|o a]]; simpl;
      try destruct (tensor_eq _ labels); simpl;
      (split; [reflexivity|split; [reflexivity|split; [new_calls|reflexivity]]]).
Qed.

(** The relation every part of a run respects, whatever its outcome:
    the grad mode is restored and no validation phase makes a call it
    may not make. *)
Definition run_rel (w w' : World) : Prop :=
  grad_enabled w' = grad_enabled w /\
  calls_extend (fun ev => val_event_ok ev = true) w w'.

Lemma run_rel_refl w : run_rel w w.
Proof. split; [reflexivity|apply calls_extend_refl]. Qed.

Lemma run_rel_trans w1 w2 w3 : run_rel w1 w2 -> run_rel w2 w3 -> run_rel w1 w3.
Proof.
  intros [G1 C1] [G2 C2]. split; [congruence|].
  eapply calls_extend_trans; eauto.
Qed.

Lemma calls_extend_weaken (P Q : Event -> Prop) w w' :
  (forall ev, P ev -> Q ev) -> calls_extend P w w' -> calls_extend Q w w'.
Proof.
  intros H (evs & E & F). exists evs. split; auto.
  eapply Forall_impl; eauto.
Qed.

Lemma run_rel_batch epoch phase running batch :
  respects run_rel (batch_body criterion is_inception epoch phase running batch).
Proof.
  intros w. destruct (batch_body_effects epoch phase running batch w)
    as (G & _ & C & _).
  split; auto. eapply calls_extend_weaken; [|exact C]. now intros ev [].
Qed.

Lemma run_rel_emit site c :
  val_event_ok (site, c) = true -> respects run_rel (emit site c).
Proof.
  intros H w. split; [reflexivity|]. exists [(site, c)]. split; auto.
Qed.

Lemma run_rel_say l : respects run_rel (say l).
Proof.
  intros w. split; [reflexivity|]. exists [].
  split; [simpl; now rewrite app_nil_r|constructor].
Qed.

Lemma run_rel_train_mode epoch phase :
  respects run_rel
    (call_train_mode (Some (epoch, phase)) (Phase_eqb phase train)).
Proof.
  intros w. split; [reflexivity|].
  exists [(Some (epoch, phase), if Phase_eqb phase train then CallTrain else CallEval)].
  split; [reflexivity|]. constructor; [|constructor]. now destruct phase.
Qed.

Lemma run_rel_load sd : respects run_rel (call_load_state_dict sd).
Proof.
  intros w. unfold call_load_state_dict. run_prims.
  destruct (load_state_dict (model w) sd); simpl.
  - apply run_rel_refl.
  - split; [reflexivity|]. exists [(None, CallLoad)]. split; auto.
Qed.

Ltac r_ret Hr :=
  first [ apply respects_ret | apply respects_lift
        | apply respects_gets | apply respects_raise ];
  exact Hr.
Ltac r_bind Ht := apply respects_bind; [exact Ht | | intros].
Ltac r_each Hr Ht := apply respects_for_each; [exact Hr | exact Ht | intros].

Lemma run_rel_phase epoch loc phase :
  respects run_rel
    (phase_body dataloaders criterion is_inception epoch loc phase).
Proof.
  unfold phase_body.
  r_bind run_rel_trans.
  { generalize (run_rel_train_mode epoch phase). now destruct phase. }
  r_bind run_rel_trans.
  { r_each run_rel_refl run_rel_trans. apply run_rel_batch. }
  match goal with |- respects _ (let '(_, _) := ?p in _) => destruct p end.
  r_bind run_rel_trans; [r_ret run_rel_refl|].
  r_bind run_rel_trans; [r_ret run_rel_refl|].
  r_bind run_rel_trans; [apply run_rel_say|].
  r_bind run_rel_trans.
  - destruct phase; simpl; [r_ret run_rel_refl|].
    match goal with |- respects _ (if ?b then _ else _) => destruct b end;
      [|r_ret run_rel_refl].
    r_bind run_rel_trans; [now apply run_rel_emit|].
    r_bind run_rel_trans; r_ret run_rel_refl.
  - destruct (Phase_eqb phase val); r_ret run_rel_refl.
Qed.

Lemma run_rel_epoch loc epoch :
  respects run_rel
    (epoch_body dataloaders criterion num_epochs is_inception loc epoch).
Proof.
  unfold epoch_body.
  r_bind run_rel_trans; [apply run_rel_say|].
  r_bind run_rel_trans; [apply run_rel_say|].
  r_bind run_rel_trans.
  { r_each run_rel_refl run_rel_trans. apply run_rel_phase. }
  r_bind run_rel_trans; [apply run_rel_say|].
  r_ret run_rel_refl.
Qed.

Lemma run_rel_train_model :
  respects run_rel
    (train_model dataloaders criterion num_epochs is_inception).
Proof.
  unfold train_model.
  r_bind run_rel_trans; [now apply run_rel_emit|].
  r_bind run_rel_trans; [r_ret run_rel_refl|].
  r_bind run_rel_trans.
  { r_each run_rel_refl run_rel_trans. apply run_rel_epoch. }
  r_bind run_rel_trans; [apply run_rel_say|].
  r_bind run_rel_trans; [apply run_rel_say|].
  r_bind run_rel_trans; [apply run_rel_load|].
  r_bind run_rel_trans; r_ret run_rel_refl.
Qed.

(** A validation phase leaves the optimizer as it found it. *)
Lemma val_phase_keeps_optimizer epoch loc :
  respects (keeps optimizer)
    (phase_body dataloaders criterion is_inception epoch loc val).
Proof.
  pose proof (@keeps_refl _ optimizer) as Hr.
  pose proof (@keeps_trans _ optimizer) as Ht.
  unfold phase_body. simpl.
  r_bind Ht; [intros w; reflexivity|].
  r_bind Ht.
  { r_each Hr Ht. intros w.
    match goal with
    | |- keeps _ _ (snd (batch_body _ _ ?e ?ph ?r ?b _)) =>
        destruct (batch_body_effects e ph r b w) as (_ & _ & _ & H);
        now apply H
    end. }
  match goal with |- respects _ (let '(_, _) := ?p in _) => destruct p end.
  r_bind Ht; [r_ret Hr|].
  r_bind Ht; [r_ret Hr|].
  r_bind Ht; [intros w; reflexivity|].
  r_bind Ht.
  - match goal with |- respects _ (if ?b then _ else _) => destruct b end;
      [|r_ret Hr].
    r_bind Ht; [intros w; reflexivity|].
    r_bind Ht; r_ret Hr.
  - r_ret Hr.
Qed.

(** ** Runs that succeed *)

Variable m0 : Module.
Hypothesis laws : framework_laws m0 is_inception.

Definition count_of (c : Corrects) : nat :=
  match c with
  | IntZero => 0
  | TensorCount n => n
  end.

Lemma batch_body_ok epoch phase rl rc inputs labels w :
  skeleton (model w) = skeleton m0 ->
  training (model w) = Phase_eqb phase train ->
  List.length inputs = List.length labels ->
  exists l k w',
    batch_body criterion is_inception epoch phase (rl, rc) (inputs, labels) w
    = (inr ((rl + loss_item l * inject_Z (Z.of_nat (List.length inputs)))%Q,
            add_corrects rc k), w') /\
    k <= List.length inputs /\
    same_module_shape (model w) (model w').
Proof.
  intros Hs Ht Hl.
  destruct (zero_grad_keeps laws (optimizer w) (model w)) as [Hs1 Ht1].
  assert (Hs1' : skeleton (zero_grad (optimizer w) (model w)) = skeleton m0)
    by congruence.
  pose proof (forward_rows laws (Phase_eqb phase train) _ inputs Hs1') as Hrows.
  pose proof (forward_aux laws (Phase_eqb phase train) _ inputs Hs1') as Haux.
  destruct (forward_keeps laws (Phase_eqb phase train)
              (zero_grad (optimizer w) (model w)) inputs) as [Hs2 Ht2].
  rewrite Ht1, Ht in Haux.
  run_prims. simpl.
  destruct (forward (Phase_eqb phase train) (zero_grad (optimizer w) (model w))
                    inputs) as [m2 out] eqn:E.
  simpl in *.
  destruct (tensor_eq_same_length (torch_max1 (primary out)) labels)
    as (hits & Eh & Hle); [congruence|].
  destruct phase; simpl in *.
  - rewrite andb_true_r in *.
    destruct is_inception, out; simpl in *; try discriminate.
    all: rewrite E; simpl.
    all: match goal with
         | |- context [step ?o ?m] =>
             pose proof (step_keeps laws o m) as [Hs4 Ht4];
             pose proof (backward_keeps laws) as Hb;
             destruct (step o m) as [o' m4] eqn:Es
         end;
         simpl in *; rewrite Eh; simpl;
         eexists; exists (tensor_sum hits); eexists;
         (split; [reflexivity|]); (split; [lia|]); simpl;
         match goal with
         | _ : step _ (backward ?l _) = _ |- _ =>
             destruct (Hb l m2) as [Hs3 Ht3]
         end;
         split; congruence.
  - rewrite andb_false_r in *.
    destruct out; simpl in *; try discriminate.
    rewrite E. simpl. rewrite Eh. simpl.
    eexists; exists (tensor_sum hits); eexists.
    split; [reflexivity|]. split; [lia|]. simpl. split; congruence.
Qed.

Lemma add_corrects_count rc k :
  add_corrects rc k = TensorCount (count_of rc + k).
Proof. now destruct rc. Qed.

(** The calls of a computation, read for the phases they open. *)
Definition mode_calls (w w' : World) (l : list Event) : Prop :=
  exists evs, calls w' = calls w ++ evs /\ filter is_mode_call evs = l.

Lemma mode_calls_trans w1 w2 w3 l1 l2 :
  mode_calls w1 w2 l1 -> mode_calls w2 w3 l2 -> mode_calls w1 w3 (l1 ++ l2).
Proof.
  intros (e1 & H1 & F1) (e2 & H2 & F2). exists (e1 ++ e2).
  split; [now rewrite H2, H1, List.app_assoc|].
  now rewrite filter_app, F1, F2.
Qed.

Lemma quiet_no_mode_call evs :
  Forall quiet_event evs -> filter is_mode_call evs = [].
Proof.
  induction 1 as [|ev evs [_ Hq] _ IH]; simpl; auto. now rewrite Hq.
Qed.

Lemma quiet_mode_calls w w' : calls_extend quiet_event w w' -> mode_calls w w' [].
Proof.
  intros (evs & E & F). exists evs. split; auto.
  now apply quiet_no_mode_call.
Qed.

Lemma quiet_batches epoch phase bs running :
  respects (calls_extend quiet_event)
    (for_each bs (batch_body criterion is_inception epoch phase) running).
Proof.
  apply respects_for_each;
    [exact (calls_extend_refl quiet_event)
    |exact (@calls_extend_trans quiet_event)|].
  intros a x w.
  now destruct (batch_body_effects epoch phase a x w) as (_ & _ & C & _).
Qed.

Lemma batches_ok epoch phase bs : forall rl rc w,
  skeleton (model w) = skeleton m0 ->
  training (model w) = Phase_eqb phase train ->
  Forall (fun b => List.length (fst b) = List.length (snd b)) bs ->
  exists rl' k w',
    for_each bs (batch_body criterion is_inception epoch phase) (rl, rc) w
    = (inr (rl', match bs with
                 | [] => rc
                 | _ => TensorCount (count_of rc + k)
                 end), w') /\
    k <= list_sum (map (fun b => List.length (fst b)) bs) /\
    same_module_shape (model w) (model w').
Proof.
  induction bs as [|[inputs labels] bs IH]; intros rl rc w Hs Ht Hb.
  - exists rl, 0, w. repeat split; auto.
  - inversion Hb as [|? ? Hl Hb']; subst. simpl in Hl.
    destruct (batch_body_ok epoch phase rl rc inputs labels w Hs Ht Hl)
      as (l & k1 & w1 & E1 & Hk1 & [Hs1 Ht1]).
    destruct (IH (rl + loss_item l * inject_Z (Z.of_nat (List.length inputs)))%Q
                 (add_corrects rc k1) w1) as (rl' & k2 & w' & E2 & Hk2 & [Hs2 Ht2]);
      [congruence|congruence|assumption|].
    rewrite for_each_cons. erewrite bind_ok by exact E1. rewrite E2.
    exists rl', (match bs with [] => k1 | _ => k1 + k2 end), w'.
    split; [|split; [|split; congruence]].
    + destruct bs; rewrite add_corrects_count; simpl;
        [reflexivity|now rewrite Nat.add_assoc].
    + destruct bs; simpl in *; lia.
Qed.

(** The locals after the validation phase of an epoch whose accuracy is
    [a] and whose weights are [wts]. *)
Definition update_best (loc : Locals) (a : Q) (wts : list (string * tensor))
  : Locals :=
  mkLocals (if Qgt_bool a (best_acc loc) then a else best_acc loc)
           (if Qgt_bool a (best_acc loc) then wts else best_model_wts loc)
           (val_acc_history loc ++ [a]).

Definition unit_interval (a : Q) : Prop := (0 <= a)%Q /\ (a <= 1)%Q.

Lemma accuracy_unit_interval k n :
  k <= n -> 0 < n -> unit_interval (Z.of_nat k # Pos.of_nat n).
Proof.
  intros Hk Hn. unfold unit_interval, Qle. simpl.
  destruct n as [|n]; [lia|].
  rewrite <- Pos.of_nat_succ, Zpos_P_of_succ_nat. lia.
Qed.

Hypothesis loaders_ok : forall phase, loader_ok num_epochs (dataloaders phase).

Definition mode_event (epoch : nat) (phase : Phase) : Event :=
  (Some (epoch, phase), if Phase_eqb phase train then CallTrain else CallEval).

Lemma phase_body_ok epoch loc phase w :
  epoch < num_epochs ->
  skeleton (model w) = skeleton m0 ->
  exists a w',
    phase_body dataloaders criterion is_inception epoch loc phase w
    = (inr (match phase with
            | train => loc
            | val => update_best loc a (state_dict (model w'))
            end), w') /\
    unit_interval a /\
    skeleton (model w') = skeleton m0 /\
    training (model w') = Phase_eqb phase train /\
    mode_calls w w' [mode_event epoch phase].
Proof.
  intros He Hs.
  destruct (loaders_ok phase He) as (Hlen & Hne & Hb & Hsum).
  set (site := Some (epoch, phase)).
  set (w1 := log (mode_event epoch phase)
               (set_model (mkModule (layers (model w)) (Phase_eqb phase train)
                                    (num_classes_attr (model w))) w)).
  assert (E1 : (if Phase_eqb phase train
                then call_train_mode site true
                else call_train_mode site false) w = (inr tt, w1))
    by (now destruct phase).
  assert (M1 : mode_calls w w1 [mode_event epoch phase]).
  { exists [mode_event epoch phase]. split; [reflexivity|]. now destruct phase. }
  assert (Hs1 : skeleton (model w1) = skeleton m0) by exact Hs.
  assert (Ht1 : training (model w1) = Phase_eqb phase train) by reflexivity.
  destruct (batches_ok epoch phase 0%Q IntZero w1 (bs := batches (dataloaders phase) epoch))
    as (rl & k & w2 & E2 & Hk & [Hs2 Ht2]); auto.
  rewrite Hs1 in Hs2. rewrite Ht1 in Ht2. clearbody w1.
  pose proof (quiet_batches epoch phase (batches (dataloaders phase) epoch)
                (0%Q, IntZero) w1) as Q2.
  rewrite E2 in Q2. simpl in Q2. apply quiet_mode_calls in Q2.
  pose proof (mode_calls_trans M1 Q2) as M2. simpl in M2.
  destruct (batches (dataloaders phase) epoch) as [|b bs] eqn:Eb; [tauto|].
  simpl in E2.
  destruct (dataset_len (dataloaders phase)) as [|n] eqn:El; [lia|].
  assert (Ha : unit_interval (Z.of_nat k # Pos.of_nat (S n)))
    by (apply accuracy_unit_interval; lia).
  unfold phase_body. fold site.
  erewrite bind_ok by exact E1. rewrite Eb.
  erewrite bind_ok by exact E2. rewrite El.
  unfold float_div, accuracy.
  set (p := Pos.of_nat (S n)) in *. clearbody p.
  unfold bind, lift, say, on_console, print, modify, emit, gets, ret.
  simpl.
  exists (Z.of_nat k # p)%Q.
  destruct phase; simpl.
  - match goal with |- exists w', (_, ?W) = _ /\ _ => exists W end.
    split; [reflexivity|]. simpl. repeat split; auto; apply Ha.
  - unfold update_best.
    destruct (Qgt_bool (Z.of_nat k # p) (best_acc loc)); simpl.
    + match goal with |- exists w', (_, ?W) = _ /\ _ => exists W end.
      split; [reflexivity|]. simpl.
      split; auto. split; [exact Hs2|]. split; [exact Ht2|].
      destruct M2 as (evs & Ec & Ef).
      exists (evs ++ [(Some (epoch, val), CallDeepCopy)]). simpl.
      split; [now rewrite Ec, List.app_assoc|].
      rewrite filter_app, Ef. reflexivity.
    + match goal with |- exists w', (_, ?W) = _ /\ _ => exists W end.
      split; [reflexivity|]. simpl. repeat split; auto; apply Ha.
Qed.

Lemma say_ok l w : say l w = (inr tt, set_stdout (stdout w ++ [l]) w).
Proof. reflexivity. Qed.

Lemma epoch_body_ok loc epoch w :
  epoch < num_epochs ->
  skeleton (model w) = skeleton m0 ->
  exists a w',
    epoch_body dataloaders criterion num_epochs is_inception loc epoch w
    = (inr (update_best loc a (state_dict (model w'))), w') /\
    unit_interval a /\
    skeleton (model w') = skeleton m0 /\
    training (model w') = false /\
    mode_calls w w' [mode_event epoch train; mode_event epoch val].
Proof.
  intros He Hs. unfold epoch_body.
  erewrite bind_ok by apply say_ok.
  erewrite bind_ok by apply say_ok.
  set (w0 := set_stdout _ (set_stdout _ w)).
  assert (Hs0 : skeleton (model w0) = skeleton m0) by exact Hs.
  assert (M0 : mode_calls w w0 [])
    by (exists []; split; [symmetry; apply app_nil_r|reflexivity]).
  clearbody w0.
  destruct (@phase_body_ok epoch loc train w0 He Hs0)
    as (a1 & w1 & E1 & _ & Hs1 & _ & M1).
  destruct (@phase_body_ok epoch loc val w1 He Hs1)
    as (a & w2 & E2 & Ha & Hs2 & Ht2 & M2).
  assert (E12 : for_each [train; val]
                  (phase_body dataloaders criterion is_inception epoch) loc w0
                = (inr (update_best loc a (state_dict (model w2))), w2)).
  { rewrite for_each_cons. erewrite bind_ok by exact E1.
    rewrite for_each_cons. erewrite bind_ok by exact E2. reflexivity. }
  erewrite bind_ok by exact E12.
  erewrite bind_ok by apply say_ok.
  exists a, (set_stdout (stdout w2 ++ [LText ""]) w2).
  split; [reflexivity|].
  split; [exact Ha|]. split; [exact Hs2|]. split; [exact Ht2|].
  apply (mode_calls_trans M0 (mode_calls_trans M1 M2)).
Qed.

(** ** The run, epoch after epoch *)

Local Abbreviation prefix :=
  (after_epochs dataloaders criterion num_epochs is_inception).

(** The weights the model has at the end of epoch [e]. *)
Definition snapshot (w : World) (e : nat) : list (string * tensor) :=
  state_dict (model (snd (prefix (S e) w))).

Lemma prefix_0 w :
  prefix 0 w
  = (inr (mkLocals 0%Q (state_dict (model w)) []), log (None, CallDeepCopy) w).
Proof. reflexivity. Qed.

Lemma prefix_S k w :
  prefix (S k) w
  = bind (prefix k)
         (fun loc =>
            epoch_body dataloaders criterion num_epochs is_inception loc k) w.
Proof.
  unfold after_epochs, bind at 1 2 4 5, emit, modify, gets. simpl fst.
  rewrite seq_S, for_each_app. simpl.
  unfold bind.
  destruct (for_each (seq 0 k) _ _ _) as [[e|loc] w1]; auto.
  destruct (epoch_body _ _ _ _ loc k w1) as [[e|loc'] w2]; auto.
Qed.

Lemma train_model_prefix w :
  train_model dataloaders criterion num_epochs is_inception w
  = bind (prefix num_epochs)
         (fun loc =>
            say LComplete ;;
            say (LBest (best_acc loc)) ;;
            call_load_state_dict (best_model_wts loc) ;;
            m <- gets model ;;
            ret (m, val_acc_history loc)) w.
Proof.
  unfold train_model, after_epochs, bind at 1 2 3 8 9 10, emit, modify, gets.
  simpl. destruct (for_each (seq 0 num_epochs) _ _ _) as [[e|loc] w1]; auto.
Qed.

(** One more epoch of a run that has come this far. *)
Lemma prefix_step w k :
  skeleton (model w) = skeleton m0 -> k < num_epochs ->
  exists loc w1 a w2,
    prefix k w = (inr loc, w1) /\
    prefix (S k) w = (inr (update_best loc a (state_dict (model w2))), w2) /\
    unit_interval a /\
    skeleton (model w1) = skeleton m0 /\
    skeleton (model w2) = skeleton m0 /\
    training (model w2) = false /\
    mode_calls w1 w2 [mode_event k train; mode_event k val].
Proof.
  intros Hs. induction k as [|k IH]; intros Hk.
  - destruct (@epoch_body_ok (mkLocals 0%Q (state_dict (model w)) []) 0
                (log (None, CallDeepCopy) w) Hk Hs)
      as (a & w2 & E & Ha & Hs2 & Ht2 & M).
    exists (mkLocals 0%Q (state_dict (model w)) []), (log (None, CallDeepCopy) w), a, w2.
    split; [apply prefix_0|].
    split; [|split; [exact Ha|split; [exact Hs|now repeat split]]].
    rewrite prefix_S. erewrite bind_ok by apply prefix_0. exact E.
  - destruct IH as (loc0 & w0 & a0 & w1 & _ & E1 & _ & _ & Hs1 & _ & _); [lia|].
    destruct (@epoch_body_ok (update_best loc0 a0 (state_dict (model w1))) (S k)
                w1 Hk Hs1)
      as (a & w2 & E & Ha & Hs2 & Ht2 & M).
    exists (update_best loc0 a0 (state_dict (model w1))), w1, a, w2.
    split; [exact E1|].
    split; [|split; [exact Ha|split; [exact Hs1|now repeat split]]].
    rewrite prefix_S. erewrite bind_ok by exact E1. exact E.
Qed.

Lemma Qgt_bool_true a b : Qgt_bool a b = true -> (b < a)%Q.
Proof.
  unfold Qgt_bool. intros H. apply Qnot_le_lt. intros Hle.
  apply Qle_bool_iff in Hle. rewrite Hle in H. discriminate.
Qed.

Lemma Qgt_bool_false a b : Qgt_bool a b = false -> (a <= b)%Q.
Proof.
  unfold Qgt_bool. intros H. apply Qle_bool_iff.
  now destruct (Qle_bool a b).
Qed.

(** Which snapshot the locals hold after [k] epochs: the initial one as
    long as no accuracy has exceeded zero, else that of the first epoch
    to reach the greatest accuracy so far. *)
Definition best_tracked (s0 : list (string * tensor))
    (snap : nat -> list (string * tensor)) (k : nat) (loc : Locals) : Prop :=
  let hist := val_acc_history loc in
  (best_acc loc = 0%Q /\ best_model_wts loc = s0 /\
   Forall (fun a => (a <= 0)%Q) hist)
  \/ exists e,
       e < k /\
       best_acc loc = nth e hist 0%Q /\
       best_model_wts loc = snap e /\
       (0 < nth e hist 0)%Q /\
       Forall (fun a => (a <= nth e hist 0)%Q) hist /\
       forall j, j < e -> (nth j hist 0 < nth e hist 0)%Q.

Lemma best_tracked_step s0 snap k loc a :
  List.length (val_acc_history loc) = k ->
  best_tracked s0 snap k loc ->
  best_tracked s0 snap (S k) (update_best loc a (snap k)).
Proof.
  intros Hlen Hb. unfold best_tracked, update_best. simpl.
  assert (Hbound : Forall (fun x => (x <= best_acc loc)%Q) (val_acc_history loc)
                   /\ (0 <= best_acc loc)%Q).
  { destruct Hb as [(-> & _ & H)|(e & _ & -> & _ & Hpos & H & _)].
    - split; [exact H|apply Qle_refl].
    - split; [exact H|now apply Qlt_le_weak]. }
  destruct Hbound as [Hall Hnonneg].
  destruct (Qgt_bool a (best_acc loc)) eqn:E.
  - apply Qgt_bool_true in E. right. exists k.
    assert (Hk : nth k (val_acc_history loc ++ [a]) 0%Q = a)
      by (rewrite app_nth2, Hlen, Nat.sub_diag by lia; reflexivity).
    rewrite Hk. split; [lia|]. split; [reflexivity|]. split; [reflexivity|].
    split; [eapply Qle_lt_trans; eauto|]. split.
    + apply Forall_app. split.
      * eapply Forall_impl; [|exact Hall]. simpl. intros x Hx.
        apply Qlt_le_weak. eapply Qle_lt_trans; eauto.
      * constructor; [apply Qle_refl|constructor].
    + intros j Hj. rewrite app_nth1 by lia.
      eapply Qle_lt_trans; [|exact E].
      rewrite Forall_forall in Hall. apply Hall. apply nth_In. lia.
  - apply Qgt_bool_false in E.
    destruct Hb as [(H0 & Hw & H)|(e & He & Hacc & Hw & Hpos & H & Hfirst)].
    + left. split; [exact H0|]. split; [exact Hw|].
      apply Forall_app. split; [exact H|].
      constructor; [now rewrite <- H0|constructor].
    + right. exists e.
      assert (Hn : forall j, j <= e ->
                nth j (val_acc_history loc ++ [a]) 0%Q
                = nth j (val_acc_history loc) 0%Q)
        by (intros; apply app_nth1; lia).
      rewrite (Hn e) by lia.
      split; [lia|]. split; [exact Hacc|]. split; [exact Hw|].
      split; [exact Hpos|]. split.
      * apply Forall_app. split; [exact H|].
        constructor; [now rewrite <- Hacc|constructor].
      * intros j Hj. rewrite Hn by lia. now apply Hfirst.
Qed.

Lemma phase_starts_S k :
  phase_starts (S k)
  = phase_starts k ++ [mode_event k train; mode_event k val].
Proof.
  unfold phase_starts. rewrite seq_S, flat_map_app. reflexivity.
Qed.

(** What holds of a run after its first [k] epochs. *)
Record prefix_facts (w : World) (k : nat) (loc : Locals) (w1 : World)
  : Prop := {
  pf_skeleton : skeleton (model w1) = skeleton m0;
  pf_eval : 0 < k -> training (model w1) = false;
  pf_calls : mode_calls w w1 (phase_starts k);
  pf_length : List.length (val_acc_history loc) = k;
  pf_range : Forall unit_interval (val_acc_history loc);
  pf_keys : map fst (best_model_wts loc) = map fst (state_dict (model w));
  pf_best : best_tracked (state_dict (model w)) (snapshot w) k loc
}.

Lemma prefix_ok w k :
  skeleton (model w) = skeleton m0 -> k <= num_epochs ->
  exists loc w1, prefix k w = (inr loc, w1) /\ prefix_facts w k loc w1.
Proof.
  intros Hs. induction k as [|k IH]; intros Hk.
  - eexists. eexists. split; [apply prefix_0|]. constructor; simpl; auto.
    + lia.
    + exists [(None, CallDeepCopy)]. auto.
    + left. auto.
  - destruct IH as (loc & w1 & E & F); [lia|].
    destruct (prefix_step w Hs (k := k)) as
      (loc' & w1' & a & w2 & E' & E2 & Ha & _ & Hs2 & Ht2 & M); [lia|].
    rewrite E in E'. inversion E'. subst loc' w1'. clear E'.
    exists (update_best loc a (state_dict (model w2))), w2.
    split; [exact E2|]. destruct F. constructor; auto.
    + rewrite phase_starts_S. eapply mode_calls_trans; eauto.
    + simpl. rewrite length_app. simpl. lia.
    + simpl. apply Forall_app. split; auto.
    + unfold update_best. simpl.
      destruct (Qgt_bool a (best_acc loc)); auto.
      apply same_skeleton_same_keys. congruence.
    + assert (Hsnap : state_dict (model w2) = snapshot w k)
        by (unfold snapshot; now rewrite E2).
      rewrite Hsnap. now apply best_tracked_step.
Qed.

(** The whole run: after the last epoch the best snapshot is loaded
    into the model, which is returned with the history. *)
Lemma train_model_ok w :
  skeleton (model w) = skeleton m0 -> distinct_keys (model w) ->
  exists loc w1 w',
    prefix num_epochs w = (inr loc, w1) /\
    prefix_facts w num_epochs loc w1 /\
    train_model dataloaders criterion num_epochs is_inception w
    = (inr (model w', val_acc_history loc), w') /\
    load_state_dict (model w1) (best_model_wts loc) = inr (model w') /\
    state_dict (model w') = best_model_wts loc /\
    skeleton (model w') = skeleton m0 /\
    training (model w') = training (model w1) /\
    optimizer w' = optimizer w1 /\
    calls w' = calls w1 ++ [(None, CallLoad)].
Proof.
  intros Hs Hnd.
  destruct (prefix_ok w Hs (le_n num_epochs)) as (loc & w1 & E & F).
  assert (Hk : map fst (best_model_wts loc) = map fst (state_dict (model w1))).
  { rewrite (pf_keys F). symmetry. apply same_skeleton_same_keys.
    rewrite (pf_skeleton F). auto. }
  destruct (load_state_dict_ok (model w1) (best_model_wts loc)) as
    (m' & El & Esd & Esk & Etr); auto.
  { rewrite (pf_keys F). exact Hnd. }
  exists loc, w1.
  rewrite train_model_prefix. erewrite bind_ok by exact E.
  erewrite bind_ok by apply say_ok.
  erewrite bind_ok by apply say_ok.
  unfold call_load_state_dict, bind, gets, lift, modify, emit, ret. simpl.
  rewrite El. simpl.
  match goal with |- exists w', _ /\ _ /\ (_, ?W) = _ /\ _ => exists W end.
  simpl. split; [exact E|]. split; [exact F|]. split; [reflexivity|].
  split; [reflexivity|]. split; [exact Esd|].
  split; [rewrite Esk; apply (pf_skeleton F)|]. auto.
Qed.

End Effects.

(** The history after [k] epochs is the beginning of the history after
    [j >= k] epochs. *)
Lemma history_prefix {TL : TensorLib} {FW : Framework}
    dataloaders criterion num_epochs is_inception m0 w :
  framework_laws m0 is_inception ->
  (forall phase, loader_ok num_epochs (dataloaders phase)) ->
  skeleton (model w) = skeleton m0 ->
  forall j k loc_k w_k loc_j w_j,
    k <= j -> j <= num_epochs ->
    after_epochs dataloaders criterion num_epochs is_inception k w
    = (inr loc_k, w_k) ->
    after_epochs dataloaders criterion num_epochs is_inception j w
    = (inr loc_j, w_j) ->
    val_acc_history loc_k = firstn k (val_acc_history loc_j).
Proof.
  intros laws loaders Hs. induction j as [|j IH]; intros k loc_k w_k loc_j w_j Hkj Hj Ek Ej.
  - assert (k = 0) by lia. subst k. rewrite Ek in Ej. inversion Ej. subst.
    rewrite prefix_0 in Ek. inversion Ek. reflexivity.
  - destruct (Nat.eq_dec k (S j)) as [->|Hne].
    + rewrite Ek in Ej. inversion Ej. subst.
      destruct (prefix_ok dataloaders criterion laws loaders w Hs Hj) as (loc & w1 & E & F).
      rewrite Ek in E. inversion E. subst.
      rewrite <- (pf_length F) at 1. symmetry. apply firstn_all.
    + destruct (prefix_step dataloaders criterion laws loaders w Hs (k := j))
        as (loc & w1 & a & w2 & E1 & E2 & _); [lia|].
      rewrite Ej in E2. inversion E2. subst. simpl.
      destruct (prefix_ok dataloaders criterion laws loaders w Hs (k := k)) as (loc' & w' & E & F);
        [lia|].
      rewrite Ek in E. inversion E. subst.
      rewrite firstn_app.
      destruct (prefix_ok dataloaders criterion laws loaders w Hs (k := j)) as (loc'' & w'' & E' & F');
        [lia|].
      rewrite E1 in E'. inversion E'. subst.
      rewrite (pf_length F').
      replace (k - j) with 0 by lia. simpl. rewrite app_nil_r.
      eapply IH; eauto; lia.
Qed.

(** * The claims about the training loop *)

Section TrainingClaims.
Context {TL : TensorLib} {FW : Framework}.
Variable dataloaders : Phase -> DataLoader.
Variable criterion : logits -> list nat -> loss.
Variable num_epochs : nat.
Variable is_inception : bool.

Local Abbreviation run :=
  (train_model dataloaders criterion num_epochs is_inception).
Local Abbreviation upto :=
  (after_epochs dataloaders criterion num_epochs is_inception).
Local Abbreviation snap :=
  (snapshot dataloaders criterion num_epochs is_inception).

(** C1 (as amended): a run over [num_epochs] epochs returns a history of
    exactly [num_epochs] accuracies, each in [0,1], the accuracy of
    epoch [e] being appended after its validation phase; the best
    accuracy and snapshot are replaced exactly when that accuracy
    strictly exceeds the best so far; and when some accuracy is greater
    than zero the returned model holds the weights of the first epoch
    that reached the greatest accuracy. *)
Theorem best_snapshot_of_first_maximum w :
  framework_laws (model w) is_inception ->
  (forall phase, loader_ok num_epochs (dataloaders phase)) ->
  distinct_keys (model w) ->
  exists m hist w',
    run w = (inr (m, hist), w') /\
    List.length hist = num_epochs /\
    Forall unit_interval hist /\
    (forall e, e < num_epochs ->
       exists loc w1 w2,
         upto e w = (inr loc, w1) /\
         upto (S e) w
         = (inr (update_best loc (nth e hist 0%Q) (snap w e)), w2)) /\
    (Exists (fun a => (0 < a)%Q) hist ->
     exists e,
       e < num_epochs /\
       state_dict m = snap w e /\
       Forall (fun a => (a <= nth e hist 0)%Q) hist /\
       forall j, j < e -> (nth j hist 0 < nth e hist 0)%Q).
Proof.
  intros laws loaders Hnd.
  destruct (train_model_ok dataloaders criterion laws loaders w eq_refl Hnd)
    as (loc & w1 & w' & E & F & Er & _ & Esd & _).
  exists (model w'), (val_acc_history loc), w'.
  split; [exact Er|]. split; [apply (pf_length F)|]. split; [apply (pf_range F)|].
  split.
  - intros e He.
    destruct (prefix_step dataloaders criterion laws loaders w eq_refl He)
      as (loc_e & w_e & a & w2 & E1 & E2 & _).
    exists loc_e, w_e, w2. split; [exact E1|].
    assert (Hsnap : state_dict (model w2) = snap w e)
      by (unfold snapshot; now rewrite E2).
    assert (Ha : nth e (val_acc_history loc) 0%Q = a).
    { pose proof (history_prefix dataloaders criterion w laws loaders eq_refl
                    (j := num_epochs) (k := S e) He (le_n _) E2 E) as Hp.
      unfold update_best in Hp. cbn [val_acc_history] in Hp.
      destruct (prefix_ok dataloaders criterion laws loaders w eq_refl
                  (k := e)) as (loc0 & w0 & E0 & F0); [lia|].
      rewrite E1 in E0. inversion E0. subst loc0 w0.
      rewrite <- (firstn_skipn (S e) (val_acc_history loc)), <- Hp.
      rewrite <- List.app_assoc, app_nth2; rewrite (pf_length F0); [|lia].
      now rewrite Nat.sub_diag. }
    now rewrite Ha, <- Hsnap.
  - intros Hex. rewrite Esd.
    destruct (pf_best F) as [(_ & _ & Hall)|(e & He & _ & Hw & _ & Hmax & Hfirst)].
    + exfalso. apply Exists_exists in Hex. destruct Hex as (a & Hin & Hpos).
      rewrite Forall_forall in Hall. apply (Qlt_not_le _ _ Hpos). now apply Hall.
    + exists e. auto.
Qed.

(** C8: the run ends after exactly [num_epochs] epochs: the phases it
    opens are, in order, the training and the validation phase of epochs
    [0 .. num_epochs-1], whatever the accuracies; it then returns the
    best snapshot, loaded into the model, and the whole history. *)
Theorem run_is_num_epochs_epochs w :
  framework_laws (model w) is_inception ->
  (forall phase, loader_ok num_epochs (dataloaders phase)) ->
  distinct_keys (model w) ->
  exists m hist w' loc w1 evs,
    run w = (inr (m, hist), w') /\
    upto num_epochs w = (inr loc, w1) /\
    hist = val_acc_history loc /\
    List.length hist = num_epochs /\
    state_dict m = best_model_wts loc /\
    calls w' = calls w ++ evs /\
    filter is_mode_call evs = phase_starts num_epochs /\
    phase_starts num_epochs
    = flat_map (fun e => [(Some (e, train), CallTrain);
                          (Some (e, val), CallEval)])
               (seq 0 num_epochs).
Proof.
  intros laws loaders Hnd.
  destruct (train_model_ok dataloaders criterion laws loaders w eq_refl Hnd)
    as (loc & w1 & w' & E & F & Er & _ & Esd & _ & _ & _ & Ec).
  destruct (pf_calls F) as (evs & Ecalls & Emode).
  exists (model w'), (val_acc_history loc), w', loc, w1,
         (evs ++ [(None, CallLoad)]).
  split; [exact Er|]. split; [exact E|]. split; [reflexivity|].
  split; [apply (pf_length F)|]. split; [exact Esd|].
  split; [now rewrite Ec, Ecalls, List.app_assoc|].
  split; [|reflexivity].
  rewrite filter_app, Emode. simpl. apply app_nil_r.
Qed.

(** C9: the best accuracy starts at zero and the best snapshot as a copy
    of the weights the model has before training; a run in which no
    epoch has an accuracy above zero, so also a run of zero epochs
    (whose history is empty), returns the model with those weights. *)
Theorem no_improvement_returns_initial_weights w :
  framework_laws (model w) is_inception ->
  (forall phase, loader_ok num_epochs (dataloaders phase)) ->
  distinct_keys (model w) ->
  exists m hist w',
    run w = (inr (m, hist), w') /\
    upto 0 w
    = (inr (mkLocals 0%Q (state_dict (model w)) []),
       log (None, CallDeepCopy) w) /\
    (num_epochs = 0 -> hist = []) /\
    (Forall (fun a => ~ (0 < a)%Q) hist ->
     state_dict m = state_dict (model w)).
Proof.
  intros laws loaders Hnd.
  destruct (train_model_ok dataloaders criterion laws loaders w eq_refl Hnd)
    as (loc & w1 & w' & E & F & Er & _ & Esd & _).
  exists (model w'), (val_acc_history loc), w'.
  split; [exact Er|]. split; [apply prefix_0|]. split.
  - intros H0. apply length_zero_iff_nil. now rewrite (pf_length F).
  - intros Hall. rewrite Esd.
    destruct (pf_best F) as [(_ & Hw & _)|(e & He & _ & _ & Hpos & _)]; auto.
    exfalso. rewrite Forall_forall in Hall.
    apply (Hall (nth e (val_acc_history loc) 0%Q)); auto.
    apply nth_In. now rewrite (pf_length F).
Qed.

(** C10 (as amended): at the end of a run the best snapshot is loaded
    into the model the caller passed, in place, and that model is
    returned with the history; the weights the last epoch left in it are
    overwritten.  The grad mode is as before the run and the structure of
    the model is unchanged; the optimizer is as the last epoch left it,
    and after at least one epoch the model is in evaluation mode. *)
Theorem best_weights_loaded_in_place w :
  framework_laws (model w) is_inception ->
  (forall phase, loader_ok num_epochs (dataloaders phase)) ->
  distinct_keys (model w) ->
  exists loc w1 w',
    upto num_epochs w = (inr loc, w1) /\
    run w = (inr (model w', val_acc_history loc), w') /\
    load_state_dict (model w1) (best_model_wts loc) = inr (model w') /\
    state_dict (model w') = best_model_wts loc /\
    skeleton (model w') = skeleton (model w) /\
    grad_enabled w' = grad_enabled w /\
    optimizer w' = optimizer w1 /\
    (0 < num_epochs -> training (model w') = false).
Proof.
  intros laws loaders Hnd.
  destruct (train_model_ok dataloaders criterion laws loaders w eq_refl Hnd)
    as (loc & w1 & w' & E & F & Er & El & Esd & Esk & Etr & Eo & _).
  exists loc, w1, w'. repeat (split; [assumption|]).
  split; [|split; [exact Eo|]].
  - destruct (run_rel_train_model dataloaders criterion num_epochs is_inception w)
      as [G _]. now rewrite Er in G.
  - intros Hpos. rewrite Etr. now apply (pf_eval F).
Qed.

(** C2: in the training phase the loss of a batch is
    [loss1 + 0.4 * loss2], the criterion applied to the primary and to
    the auxiliary outputs, when the model is the two-headed one, and the
    criterion applied to the single output otherwise; this is the loss
    that is back-propagated and that enters the running loss. *)
Theorem train_batch_loss epoch rl rc inputs labels w m2 out :
  forward true (zero_grad (optimizer w) (model w)) inputs = (m2, out) ->
  has_aux_output out = is_inception ->
  List.length (torch_max1 (primary out)) = List.length labels ->
  let batch_loss :=
    match out with
    | WithAux outputs aux_outputs =>
        loss_add (criterion outputs labels)
                 (loss_scale (4 # 10)%Q (criterion aux_outputs labels))
    | Single outputs => criterion outputs labels
    end in
  let site := Some (epoch, train) in
  exists hits,
    tensor_eq (torch_max1 (primary out)) labels = inr hits /\
    batch_body criterion is_inception epoch train (rl, rc) (inputs, labels) w
    = (inr ((rl + loss_item batch_loss
                  * inject_Z (Z.of_nat (List.length inputs)))%Q,
            add_corrects rc (tensor_sum hits)),
       mkWorld (snd (step (optimizer w) (backward batch_loss m2)))
               (fst (step (optimizer w) (backward batch_loss m2)))
               (grad_enabled w)
               (calls w
                ++ [(site, CallZeroGrad); (site, CallForward true);
                    (site, CallCriterion Primary)]
                ++ (if is_inception then [(site, CallCriterion Auxiliary)]
                    else [])
                ++ [(site, CallBackward); (site, CallStep)])
               (stdout w)).
Proof.
  intros E Haux Hrows batch_loss site.
  destruct (tensor_eq_same_length _ _ Hrows) as (hits & Eh & _).
  exists hits. split; [exact Eh|].
  subst batch_loss.
  destruct out as [o|o a]; simpl in *; subst is_inception;
    unfold batch_body, forward_loss, with_grad_enabled, call_zero_grad,
      call_model, call_criterion, call_backward, call_step, emit, modify,
      lift, ret, raise, bind;
    simpl; rewrite E; simpl; rewrite Eh; simpl;
    match goal with
    | |- context [step ?o ?m] => destruct (step o m) as [o' m4]
    end;
    simpl; f_equal; apply world_ext; simpl;
    rewrite <- ?List.app_assoc; reflexivity.
Qed.

(** C7: whatever the run and however it ends, a validation phase makes
    no call but [model.eval()], [optimizer.zero_grad()], the forward pass
    with gradients disabled, the criterion on the primary outputs and the
    copy of the state dictionary: no backward pass, no optimizer step, no
    auxiliary loss.  It leaves the optimizer as it found it, and its loss
    is the criterion applied to the single output, also for the
    two-headed model. *)
Theorem validation_makes_no_update w :
  (exists evs,
     calls (snd (run w)) = calls w ++ evs /\
     Forall (fun ev => val_event_ok ev = true) evs) /\
  (forall epoch loc w1,
     optimizer (snd (phase_body dataloaders criterion is_inception
                                epoch loc val w1))
     = optimizer w1) /\
  (forall site inputs labels w1,
     fst (forward_loss criterion is_inception site val inputs labels w1)
     = match snd (forward (grad_enabled w1) (model w1) inputs) with
       | Single outputs => inr (criterion outputs labels, outputs)
       | WithAux _ _ => inl TypeError
       end).
Proof.
  split; [|split].
  - apply (run_rel_train_model dataloaders criterion num_epochs is_inception w).
  - intros. apply val_phase_keeps_optimizer.
  - intros. unfold forward_loss. rewrite andb_false_r.
    unfold bind, call_model, call_criterion, emit, modify, ret, raise.
    destruct (forward _ _ _) as [m' [o|o a]]; reflexivity.
Qed.

End TrainingClaims.

(** * The claims on the sample instance *)

Import Sample.

Lemma sample_zoo_shape : zoo_shape.
Proof.
  intros name up path Hn Hp. unfold supported in Hn. simpl in Hn.
  destruct Hn as [<-|[<-|[<-|[<-|[<-|[<-|[]]]]]]]; simpl in Hp;
    repeat match goal with
           | H : _ \/ _ |- _ => destruct H as [<-|H]
           | H : False |- _ => destruct H
           end;
    (eexists; split; [reflexivity|]); unfold head_shape; simpl;
    (split; [reflexivity|]); try reflexivity;
    (eexists; split; [reflexivity|lia]).
Qed.

Lemma sample_zoo_trainable : zoo_trainable.
Proof.
  intros name up p Hn Hp. unfold supported in Hn. simpl in Hn.
  destruct Hn as [<-|[<-|[<-|[<-|[<-|[<-|[]]]]]]]; simpl in Hp;
    repeat match goal with
           | H : _ \/ _ |- _ => destruct H as [<-|H]
           | H : False |- _ => destruct H
           end;
    reflexivity.
Qed.

Lemma skeleton_map_params f m : skeleton (map_params f m) = skeleton m.
Proof.
  unfold skeleton, map_params. simpl. rewrite map_map. apply map_ext.
  intros [path l]. simpl. now rewrite map_map.
Qed.

Lemma map_params_keeps f m : same_module_shape m (map_params f m).
Proof. split; [apply skeleton_map_params|reflexivity]. Qed.

Lemma tiny_has_no_aux m : skeleton m = skeleton tiny -> has_aux m = false.
Proof.
  destruct m as [[|[p l] [|? ?]] t a]; try discriminate.
  unfold skeleton, has_aux. simpl. intros E. inversion E. reflexivity.
Qed.

Lemma sample_laws : framework_laws tiny false.
Proof.
  constructor; simpl.
  - intros. apply same_module_shape_refl.
  - intros. apply map_params_keeps.
  - intros. apply map_params_keeps.
  - intros. apply map_params_keeps.
  - intros g m x _. destruct (training m && has_aux m); simpl; apply length_map.
  - intros g m x H. now rewrite (tiny_has_no_aux _ H), andb_false_r.
Qed.

Lemma sample_loaders_ok n labels :
  List.length labels = 2 -> forall phase, loader_ok n (loaders labels phase).
Proof.
  intros Hl phase e _. destruct phase; simpl;
    (split; [lia|]); (split; [discriminate|]); (split; [|lia]);
    repeat constructor. simpl. now rewrite Hl.
Qed.

Lemma sample_distinct_keys : distinct_keys tiny.
Proof.
  unfold distinct_keys. simpl.
  repeat constructor; simpl; intuition discriminate.
Qed.

(** The run of the one-layer model under an optimizer that holds its
    weight: the validation images are all predicted [0] when the weight
    sum is even and [1] when it is odd. *)
Definition tiny_world : World := start tiny ["fc.weight"%string].

(** The two-headed sample model in training mode. *)
Definition two_headed_world : World :=
  start (inception_v3 true) ["fc.weight"; "AuxLogits.fc.weight"]%string.

(** ** Witnesses of the adapter theorems *)

Lemma trainable_parameters_witness :
  exists m sz,
    initialize_model "inception" 2 true true [] = (inr (m, sz), []) /\
    (true = true ->
       (forall n p,
          In (n, p) (filter trainable (named_parameters m)) <->
          exists path old,
            In path (heads "inception") /\
            lookup path (layers (loaded "inception" true)) = Some old /\
            In (n, p) (named_params_of path (new_head "inception" 2 old))) /\
       (forall path,
          ~ In path (heads "inception") ->
          lookup path (layers m)
          = option_map freeze_layer
              (lookup path (layers (loaded "inception" true)))) /\
       (forall n,
          In n (params_to_update m true) <->
          exists path,
            In path (heads "inception") /\
            (n = child path "weight" \/ n = child path "bias"))) /\
    (true = false ->
       zoo_trainable ->
       (forall p, In p (parameters m) -> requires_grad p = true) /\
       params_to_update m true = map fst (named_parameters m)).
Proof.
  apply (@trainable_parameters tensors zoo "inception"%string 2%Z true true []);
    [simpl; tauto | exact sample_zoo_shape | lia].
Defined.

Lemma unsupported_family_exits_witness :
  initialize_model "googlenet" 2 true true []
  = (inl SystemExit, [] ++ [LText "Invalid model name, exiting..."]) /\
  forall num_epochs dataloaders_dict criterion s,
    notebook "googlenet" 2 num_epochs true dataloaders_dict criterion s
    = (inl SystemExit,
       mkSession (s_grad_enabled s) (s_calls s)
                 (s_stdout s ++ [LText "Invalid model name, exiting..."])).
Proof.
  apply (@unsupported_family_exits tensors zoo framework
           "googlenet"%string 2%Z true true []).
  unfold supported. simpl. intuition discriminate.
Defined.

Lemma final_layers_resized_witness :
  exists m sz,
    initialize_model "inception" 2 false true [] = (inr (m, sz), []) /\
    heads "inception" <> [] /\
    (forall path,
       In path (heads "inception") ->
       exists old new,
         lookup path (layers (loaded "inception" true)) = Some old /\
         lookup path (layers m) = Some new /\
         new = new_head "inception" 2 old /\
         out_width new = Some 2%Z /\
         in_width new = in_width old) /\
    ("inception"%string = "inception"%string ->
     heads "inception" = ["AuxLogits.fc"; "fc"]%string).
Proof.
  apply (@final_layers_resized tensors zoo "inception"%string 2%Z false true []);
    [simpl; tauto | exact sample_zoo_shape | lia].
Defined.

Lemma input_size_by_family_witness :
  exists m sz,
    initialize_model "squeezenet" 2 true true [] = (inr (m, sz), []) /\
    (sz = 299%Z <-> "squeezenet"%string = "inception"%string) /\
    (sz = 224%Z <-> "squeezenet"%string <> "inception"%string).
Proof.
  apply (@input_size_by_family tensors zoo "squeezenet"%string 2%Z true true []);
    [simpl; tauto | exact sample_zoo_shape | lia].
Defined.

(** ** Witnesses and counterexamples of the training theorems *)

(** The weights of the returned model and the history, or the exception. *)
Definition outcome {TL : TensorLib} {W : Type}
    (r : (Exc + Module * list Q) * W)
  : Exc + list (string * tensor) * list Q :=
  match fst r with
  | inr (m, hist) => inr (state_dict m, hist)
  | inl e => inl e
  end.

(** C1, as stated, fails on a run of one epoch whose validation accuracy
    is zero: the only epoch ends with the weight at [2], but the model
    returned holds the weight [1] it had before training. *)
Lemma best_snapshot_counterexample :
  outcome (train_model (loaders [1; 1]) errors 1 false tiny_world)
  = inr ([("fc.weight"%string, 1%Z); ("fc.bias"%string, 0%Z)], [(0 # 2)%Q]) /\
  snapshot (loaders [1; 1]) errors 1 false tiny_world 0
  = [("fc.weight"%string, 2%Z); ("fc.bias"%string, 0%Z)].
Proof. split; vm_compute; reflexivity. Qed.

Lemma best_snapshot_of_first_maximum_witness :
  exists m hist w',
    train_model (loaders [1; 1]) errors 3 false tiny_world
    = (inr (m, hist), w') /\
    List.length hist = 3 /\
    Forall unit_interval hist /\
    (forall e, e < 3 ->
       exists loc w1 w2,
         after_epochs (loaders [1; 1]) errors 3 false e tiny_world
         = (inr loc, w1) /\
         after_epochs (loaders [1; 1]) errors 3 false (S e) tiny_world
         = (inr (update_best loc (nth e hist 0%Q)
                   (snapshot (loaders [1; 1]) errors 3 false tiny_world e)),
            w2)) /\
    (Exists (fun a => (0 < a)%Q) hist ->
     exists e,
       e < 3 /\
       state_dict m = snapshot (loaders [1; 1]) errors 3 false tiny_world e /\
       Forall (fun a => (a <= nth e hist 0)%Q) hist /\
       forall j, j < e -> (nth j hist 0 < nth e hist 0)%Q).
Proof.
  apply (@best_snapshot_of_first_maximum tensors framework
           (loaders [1; 1]) errors 3 false tiny_world);
    [exact sample_laws | now apply sample_loaders_ok | exact sample_distinct_keys].
Defined.

Lemma run_is_num_epochs_epochs_witness :
  exists m hist w' loc w1 evs,
    train_model (loaders [1; 1]) errors 3 false tiny_world
    = (inr (m, hist), w') /\
    after_epochs (loaders [1; 1]) errors 3 false 3 tiny_world = (inr loc, w1) /\
    hist = val_acc_history loc /\
    List.length hist = 3 /\
    state_dict m = best_model_wts loc /\
    calls w' = calls tiny_world ++ evs /\
    filter is_mode_call evs = phase_starts 3 /\
    phase_starts 3
    = flat_map (fun e => [(Some (e, train), CallTrain);
                          (Some (e, val), CallEval)])
               (seq 0 3).
Proof.
  apply (@run_is_num_epochs_epochs tensors framework
           (loaders [1; 1]) errors 3 false tiny_world);
    [exact sample_laws | now apply sample_loaders_ok | exact sample_distinct_keys].
Defined.

Lemma no_improvement_returns_initial_weights_witness :
  exists m hist w',
    train_model (loaders [1; 1]) errors 1 false tiny_world
    = (inr (m, hist), w') /\
    after_epochs (loaders [1; 1]) errors 1 false 0 tiny_world
    = (inr (mkLocals 0%Q (state_dict (model tiny_world)) []),
       log (None, CallDeepCopy) tiny_world) /\
    (1 = 0 -> hist = []) /\
    (Forall (fun a => ~ (0 < a)%Q) hist ->
     state_dict m = state_dict (model tiny_world)).
Proof.
  apply (@no_improvement_returns_initial_weights tensors framework
           (loaders [1; 1]) errors 1 false tiny_world);
    [exact sample_laws | now apply sample_loaders_ok | exact sample_distinct_keys].
Defined.

(** C10, as stated, fails on the same run of one epoch: the optimizer
    the caller passed has taken a step, and the model that was in
    training mode is left in evaluation mode. *)
Lemma run_modifies_optimizer_counterexample :
  outcome (train_model (loaders [1; 1]) errors 1 false tiny_world)
  = inr ([("fc.weight"%string, 1%Z); ("fc.bias"%string, 0%Z)], [(0 # 2)%Q]) /\
  optimizer tiny_world = mkSgd ["fc.weight"%string] 0 /\
  optimizer (snd (train_model (loaders [1; 1]) errors 1 false tiny_world))
  = mkSgd ["fc.weight"%string] 1 /\
  training (model tiny_world) = true /\
  training (model (snd (train_model (loaders [1; 1]) errors 1 false tiny_world)))
  = false.
Proof. repeat split; vm_compute; reflexivity. Qed.

Lemma best_weights_loaded_in_place_witness :
  exists loc w1 w',
    after_epochs (loaders [1; 1]) errors 3 false 3 tiny_world = (inr loc, w1) /\
    train_model (loaders [1; 1]) errors 3 false tiny_world
    = (inr (model w', val_acc_history loc), w') /\
    load_state_dict (model w1) (best_model_wts loc) = inr (model w') /\
    state_dict (model w') = best_model_wts loc /\
    skeleton (model w') = skeleton (model tiny_world) /\
    grad_enabled w' = grad_enabled tiny_world /\
    optimizer w' = optimizer w1 /\
    (0 < 3 -> training (model w') = false).
Proof.
  apply (@best_weights_loaded_in_place tensors framework
           (loaders [1; 1]) errors 3 false tiny_world);
    [exact sample_laws | now apply sample_loaders_ok | exact sample_distinct_keys].
Defined.

Lemma train_batch_loss_witness :
  let w := two_headed_world in
  let m2 := zero_grad (optimizer w) (model w) in
  let batch_loss :=
    loss_add (errors [1; 0] [0; 1])
             (loss_scale (4 # 10)%Q (errors [1; 0] [0; 1])) in
  let site := Some (0, train) in
  exists hits,
    tensor_eq [1; 0] [0; 1] = inr hits /\
    batch_body errors true 0 train (0%Q, IntZero) ([0; 1], [0; 1]) w
    = (inr ((0 + loss_item batch_loss * inject_Z (Z.of_nat 2))%Q,
            add_corrects IntZero (tensor_sum hits)),
       mkWorld (snd (step (optimizer w) (backward batch_loss m2)))
               (fst (step (optimizer w) (backward batch_loss m2)))
               (grad_enabled w)
               (calls w
                ++ [(site, CallZeroGrad); (site, CallForward true);
                    (site, CallCriterion Primary)]
                ++ [(site, CallCriterion Auxiliary)]
                ++ [(site, CallBackward); (site, CallStep)])
               (stdout w)).
Proof.
  exact (@train_batch_loss tensors framework errors true 0 0%Q IntZero
           [0; 1] [0; 1] two_headed_world
           (zero_grad (optimizer two_headed_world) (model two_headed_world))
           (WithAux [1; 0] [1; 0]) eq_refl eq_refl eq_refl).
Defined.

(** ** Sample runs *)

(** Three epochs with accuracies 0, 1, 0: the weights of the second
    epoch are returned. *)
Example run_keeps_the_best_epoch :
  outcome (train_model (loaders [1; 1]) errors 3 false tiny_world)
  = inr ([("fc.weight"%string, 3%Z); ("fc.bias"%string, 0%Z)],
         [(0 # 2)%Q; (2 # 2)%Q; (0 # 2)%Q]).
Proof. vm_compute. reflexivity. Qed.

(** Three epochs with the same accuracy: the weights of the first. *)
Example run_keeps_the_first_of_equals :
  outcome (train_model (loaders [1; 0]) errors 3 false tiny_world)
  = inr ([("fc.weight"%string, 2%Z); ("fc.bias"%string, 0%Z)],
         [(1 # 2)%Q; (1 # 2)%Q; (1 # 2)%Q]).
Proof. vm_compute. reflexivity. Qed.

Example run_of_no_epoch :
  outcome (train_model (loaders [1; 1]) errors 0 false tiny_world)
  = inr ([("fc.weight"%string, 1%Z); ("fc.bias"%string, 0%Z)], []).
Proof. vm_compute. reflexivity. Qed.

(** The runs the contracts exclude end with an exception. *)
Example empty_dataset_raises :
  outcome (train_model (fun _ => mkLoader 0 (fun _ => [])) errors 1 false
                       tiny_world)
  = inl ZeroDivisionError.
Proof. vm_compute. reflexivity. Qed.

Example no_batch_raises :
  outcome (train_model (fun _ => mkLoader 2 (fun _ => [])) errors 1 false
                       tiny_world)
  = inl AttributeError.
Proof. vm_compute. reflexivity. Qed.

Example two_headed_model_without_the_flag_raises :
  outcome (train_model (loaders [1; 1]) errors 1 false two_headed_world)
  = inl TypeError.
Proof. vm_compute. reflexivity. Qed.

Example flag_without_two_headed_model_raises :
  outcome (train_model (loaders [1; 1]) errors 1 true tiny_world)
  = inl ValueError.
Proof. vm_compute. reflexivity. Qed.

Example notebook_with_unknown_name :
  notebook "googlenet" 2 2 true (fun _ => loaders [1; 1]) errors empty_session
  = (inl SystemExit,
     mkSession true [] [LText "Invalid model name, exiting..."]).
Proof. vm_compute. reflexivity. Qed.

Example trainable_names_of_the_two_headed_model :
  match fst (initialize_model "inception" 2 true true []) with
  | inr (m, _) => params_to_update m true
  | inl _ => []
  end
  = ["AuxLogits.fc.weight"; "AuxLogits.fc.bias"; "fc.weight"; "fc.bias"]%string.
Proof. vm_compute. reflexivity. Qed.

Example negative_class_count_raises :
  fst (initialize_model "resnet" (-1) false true []) = inl RuntimeError.
Proof. vm_compute. reflexivity. Qed.

(** * Further properties of the notebook's functions *)

(** ** set_parameter_requires_grad and initialize_model *)

Section AdapterMore.
Context {TL : TensorLib} {TV : Torchvision}.

Lemma state_dict_frozen ls t a :
  state_dict
    (mkModule (map (fun pl => (fst pl, freeze_layer (snd pl))) ls) t a)
  = state_dict (mkModule ls t a).
Proof.
  unfold state_dict, named_parameters. simpl.
  induction ls as [|[path l] ls IH]; simpl; auto.
  rewrite !map_app, IH. f_equal.
  unfold named_params_of, freeze_layer. simpl. rewrite !map_map. reflexivity.
Qed.

Lemma skeleton_frozen ls t a :
  skeleton (mkModule (map (fun pl => (fst pl, freeze_layer (snd pl))) ls) t a)
  = skeleton (mkModule ls t a).
Proof.
  unfold skeleton. simpl. rewrite map_map. apply map_ext.
  intros [path l]. simpl. now rewrite map_map.
Qed.

Lemma parameters_frozen ls t a p :
  In p (parameters
          (mkModule (map (fun pl => (fst pl, freeze_layer (snd pl))) ls) t a)) ->
  requires_grad p = false.
Proof.
  unfold parameters. rewrite in_map_iff. intros ([n p'] & <- & H).
  apply in_named_parameters in H. destruct H as (path & l & Hl & Hp).
  simpl in Hl. apply in_map_iff in Hl. destruct Hl as ([path' l'] & E & _).
  inversion E. subst. apply in_named_params_of in Hp.
  destruct Hp as (n0 & _ & Hp). eapply frozen_not_trainable; eauto.
Qed.

Lemma freeze_layer_twice l : freeze_layer (freeze_layer l) = freeze_layer l.
Proof.
  unfold freeze_layer. simpl. f_equal. rewrite map_map.
  apply map_ext. now intros [n p].
Qed.

(** X1: freezing changes the [requires_grad] flags and nothing else: the
    names, the values and the mode of the model are as before, no
    parameter is trainable afterwards, freezing twice is freezing once,
    and without the flag the model is left as it is. *)
Theorem freezing_keeps_values (model : Module) (feature_extracting : bool) :
  let frozen := set_parameter_requires_grad model feature_extracting in
  state_dict frozen = state_dict model /\
  skeleton frozen = skeleton model /\
  training frozen = training model /\
  (feature_extracting = true ->
   Forall (fun p => requires_grad p = false) (parameters frozen)) /\
  set_parameter_requires_grad frozen feature_extracting = frozen /\
  set_parameter_requires_grad model false = model.
Proof.
  destruct model as [ls t a]. destruct feature_extracting; simpl.
  - split; [apply state_dict_frozen|]. split; [apply skeleton_frozen|].
    split; [reflexivity|]. split.
    + intros _. apply Forall_forall. intros p Hp.
      now apply parameters_frozen in Hp.
    + split; [|reflexivity]. f_equal. rewrite map_map. apply map_ext.
      intros [path l]. simpl. now rewrite freeze_layer_twice.
  - repeat split; auto. discriminate.
Qed.

Lemma assign_keeps_keys {A} k (v old : A) l :
  lookup k l = Some old -> map fst (assign k v l) = map fst l.
Proof.
  induction l as [|[k0 v0] l IH]; simpl; [discriminate|].
  destruct (String.eqb_spec k0 k); simpl; [reflexivity|].
  intros H. now rewrite IH.
Qed.

Lemma reshaped_keeps_keys make paths : forall ls,
  map fst (reshaped make paths ls) = map fst ls.
Proof.
  induction paths as [|p paths IH]; intros ls; simpl; auto.
  rewrite IH. destruct (lookup p ls) eqn:E; auto.
  eapply assign_keeps_keys; eauto.
Qed.

Lemma layers_of_base m fe :
  map fst (layers (set_parameter_requires_grad m fe)) = map fst (layers m).
Proof.
  destruct fe; simpl; auto. rewrite map_map. reflexivity.
Qed.

Definition values_of (l : Layer) : list (string * tensor) :=
  map (fun np => (fst np, data (snd np))) (params l).

Lemma values_of_thaw_or_freeze fe l :
  values_of (thaw_or_freeze fe l) = values_of l.
Proof.
  destruct fe; simpl; auto. unfold values_of, freeze_layer. simpl.
  now rewrite map_map.
Qed.

(** X2: the adapter replaces the head(s) and nothing else: the layers of
    the returned model are those of the loaded one, in the same order,
    and every layer that is not a head has the kind and the parameter
    values it was loaded with; the mode of the model is as loaded, and
    its [num_classes] attribute is set for "squeezenet" only. *)
Theorem adapter_keeps_the_backbone name nc fe up out :
  In name supported -> zoo_shape -> (0 < nc)%Z ->
  exists m sz,
    initialize_model name nc fe up out = (inr (m, sz), out) /\
    map fst (layers m) = map fst (layers (loaded name up)) /\
    training m = training (loaded name up) /\
    num_classes_attr m
    = (if String.eqb name "squeezenet" then Some nc
       else num_classes_attr (loaded name up)) /\
    forall path l,
      ~ In path (heads name) ->
      lookup path (layers (loaded name up)) = Some l ->
      exists l',
        lookup path (layers m) = Some l' /\
        kind l' = kind l /\
        values_of l' = values_of l.
Proof.
  intros Hn Hz Hnc. exists (adapted name nc fe up), (resolution name).
  split; [now apply initialize_model_adapted|]. split; [|split; [|split]].
  - unfold adapted. simpl. rewrite reshaped_keeps_keys. apply layers_of_base.
  - unfold adapted. simpl. now destruct fe.
  - unfold adapted. simpl. now destruct fe.
  - intros path l Hp Hl. exists (thaw_or_freeze fe l).
    rewrite adapted_elsewhere, Hl by assumption.
    split; [reflexivity|]. split.
    + apply kind_thaw_or_freeze.
    + apply values_of_thaw_or_freeze.
Qed.

(** X3: the names printed under "Params to learn" are always among the
    parameters handed to the optimizer; the two lists are the same when
    feature extracting, and also when finetuning a model all of whose
    parameters are trainable. *)
Theorem params_to_learn_are_optimized (model_ft : Module) (feature_extract : bool) :
  incl (params_to_learn model_ft) (params_to_update model_ft feature_extract) /\
  params_to_learn model_ft = params_to_update model_ft true /\
  (Forall (fun p => requires_grad p = true) (parameters model_ft) ->
   params_to_learn model_ft = params_to_update model_ft false).
Proof.
  unfold params_to_learn, params_to_update, parameters.
  split; [|split; [reflexivity|]].
  - destruct feature_extract; [apply incl_refl|].
    intros n Hn. apply in_map_iff in Hn. destruct Hn as (np & <- & Hin).
    apply filter_In in Hin. apply in_map. tauto.
  - intros Hall. f_equal.
    induction (named_parameters model_ft) as [|np l IH]; simpl; auto.
    inversion Hall as [|? ? Hp Hl]; subst. rewrite Hp. f_equal. now apply IH.
Qed.

End AdapterMore.

(** ** Runs of train_model that stop early *)

Section RunsMore.
Context {TL : TensorLib} {FW : Framework}.
Variable dataloaders : Phase -> DataLoader.
Variable criterion : logits -> list nat -> loss.

(** X4: whatever the outcome of a run, an exception included, the grad
    mode is afterwards what it was before the call. *)
Theorem grad_mode_restored_whatever_the_outcome num_epochs is_inception w :
  grad_enabled (snd (train_model dataloaders criterion num_epochs is_inception w))
  = grad_enabled w.
Proof. apply run_rel_train_model. Qed.

Lemma bind_raise {S A B} (c : M S A) (k : A -> M S B) s e s' :
  c s = (inl e, s') -> bind c k s = (inl e, s').
Proof. unfold bind. now intros ->. Qed.

(** The world in which the first phase of a run starts. *)
Definition at_first_phase (num_epochs : nat) (w : World) : World :=
  set_stdout (stdout w ++ [LEpoch 0 (Z.of_nat num_epochs - 1); LText "----------"])
             (log (None, CallDeepCopy) w).

Lemma first_phase_raises num_epochs is_inception w e w' :
  0 < num_epochs ->
  phase_body dataloaders criterion is_inception 0
             (mkLocals 0%Q (state_dict (model w)) []) train
             (at_first_phase num_epochs w) = (inl e, w') ->
  train_model dataloaders criterion num_epochs is_inception w = (inl e, w').
Proof.
  intros Hn H. destruct num_epochs as [|n]; [lia|].
  unfold train_model.
  erewrite bind_ok by reflexivity.
  erewrite bind_ok by reflexivity.
  apply bind_raise. change (seq 0 (S n)) with (0 :: seq 1 n).
  rewrite for_each_cons. apply bind_raise.
  unfold epoch_body.
  erewrite bind_ok by apply say_ok.
  erewrite bind_ok by apply say_ok.
  apply bind_raise. rewrite for_each_cons. apply bind_raise.
  rewrite <- H. f_equal. apply world_ext; try reflexivity.
  cbn. now rewrite <- List.app_assoc.
Qed.

(** X5: when the training loader yields no batch in the first epoch,
    the run stops at the statistics of that first phase:
    [ZeroDivisionError] over an empty dataset, otherwise
    [AttributeError] for the [.double()] of the integer
    [running_corrects] still is.  By then the model has been put in
    training mode and the epoch header printed; the parameters and the
    optimizer are untouched. *)
Theorem first_phase_without_batches_raises num_epochs is_inception w :
  0 < num_epochs ->
  batches (dataloaders train) 0 = [] ->
  let r := train_model dataloaders criterion num_epochs is_inception w in
  fst r = inl (match dataset_len (dataloaders train) with
               | O => ZeroDivisionError
               | S _ => AttributeError
               end) /\
  layers (model (snd r)) = layers (model w) /\
  training (model (snd r)) = true /\
  optimizer (snd r) = optimizer w /\
  calls (snd r) = calls w ++ [(None, CallDeepCopy); (Some (0, train), CallTrain)] /\
  stdout (snd r)
  = stdout w ++ [LEpoch 0 (Z.of_nat num_epochs - 1); LText "----------"].
Proof.
  intros Hn Hb.
  erewrite first_phase_raises with (w' :=
    log (Some (0, train), CallTrain)
        (set_model (mkModule (layers (model w)) true (num_classes_attr (model w)))
                   (at_first_phase num_epochs w))); auto.
  - cbn. rewrite <- List.app_assoc. repeat split.
  - unfold phase_body. rewrite Hb. cbn [for_each Phase_eqb].
    erewrite bind_ok by reflexivity.
    erewrite bind_ok by reflexivity.
    unfold float_div, accuracy.
    destruct (dataset_len (dataloaders train)); reflexivity.
Qed.


(** X7: a run of no epoch reads no batch and calls neither the model,
    the criterion nor the optimizer: it takes the snapshot, prints the
    two closing lines with the best accuracy [0], loads the snapshot
    back and returns the model, with the values it had, and an empty
    history. *)
Theorem run_of_zero_epochs is_inception w :
  distinct_keys (model w) ->
  exists m,
    train_model dataloaders criterion 0 is_inception w
    = (inr (m, []),
       mkWorld m (optimizer w) (grad_enabled w)
               (calls w ++ [(None, CallDeepCopy); (None, CallLoad)])
               (stdout w ++ [LComplete; LBest 0%Q])) /\
    state_dict m = state_dict (model w) /\
    skeleton m = skeleton (model w) /\
    training m = training (model w).
Proof.
  intros Hnd.
  destruct (load_state_dict_ok (model w) (state_dict (model w)))
    as (m & El & Esd & Esk & Etr); auto.
  exists m. split; [|auto].
  unfold train_model. cbn [seq for_each].
  unfold bind, emit, modify, gets, ret, lift, say, on_console, print,
    call_load_state_dict, deepcopy.
  cbn. rewrite El. cbn. f_equal. apply world_ext; cbn; auto.
  - now rewrite <- List.app_assoc.
  - now rewrite <- List.app_assoc.
Qed.

End RunsMore.

(** ** What a run that returns has printed and stepped *)

Lemma bind_inv {S A B} (c : M S A) (k : A -> M S B) s b s' :
  bind c k s = (inr b, s') ->
  exists a s1, c s = (inr a, s1) /\ k a s1 = (inr b, s').
Proof.
  unfold bind. destruct (c s) as [[e|a] s1]; [discriminate|].
  intros H. now exists a, s1.
Qed.

(** The figures printed for one epoch. *)
Record EpochRow : Type := mkRow {
  train_loss : Q;
  train_acc : Q;
  val_loss : Q;
  val_acc : Q
}.

(** [if epoch_acc > best_acc: best_acc = epoch_acc], over a history. *)
Definition best_of (hist : list Q) (best : Q) : Q :=
  fold_left (fun b a => if Qgt_bool a b then a else b) hist best.

Section Traces.
Context {TL : TensorLib} {FW : Framework}.
Variable dataloaders : Phase -> DataLoader.
Variable criterion : logits -> list nat -> loss.
Variable num_epochs : nat.
Variable is_inception : bool.

(** The five lines of an epoch. *)
Definition epoch_lines (num_epochs epoch : nat) (r : EpochRow) : list Line :=
  [LEpoch epoch (Z.of_nat num_epochs - 1); LText "----------";
   LPhase train (train_loss r) (train_acc r);
   LPhase val (val_loss r) (val_acc r); LText ""].

(** The lines of the epochs [first], [first + 1], ... *)
Definition report (num_epochs first : nat) (rows : list EpochRow) : list Line :=
  flat_map (fun er => epoch_lines num_epochs (fst er) (snd er))
           (combine (seq first (List.length rows)) rows).

Definition is_step (ev : Event) : bool :=
  match snd ev with
  | CallStep => true
  | _ => false
  end.

(** One optimizer step per batch of a training phase, none in a
    validation phase. *)
Definition steps_of {X} (epoch : nat) (phase : Phase) (bs : list X) : list Event :=
  match phase with
  | train => map (fun _ => (Some (epoch, train), CallStep)) bs
  | val => []
  end.

Definition steps_between (w w' : World) (l : list Event) : Prop :=
  exists evs, calls w' = calls w ++ evs /\ filter is_step evs = l.

Lemma steps_between_trans w1 w2 w3 l1 l2 :
  steps_between w1 w2 l1 -> steps_between w2 w3 l2 ->
  steps_between w1 w3 (l1 ++ l2).
Proof.
  intros (e1 & H1 & F1) (e2 & H2 & F2). exists (e1 ++ e2).
  split; [now rewrite H2, H1, List.app_assoc|].
  now rewrite filter_app, F1, F2.
Qed.

Lemma steps_between_refl w : steps_between w w [].
Proof. exists []. split; [now rewrite app_nil_r|reflexivity]. Qed.

Lemma batch_trace epoch phase running batch w r' w' :
  batch_body criterion is_inception epoch phase running batch w = (inr r', w') ->
  stdout w' = stdout w /\
  steps_between w w' (steps_of epoch phase [batch]).
Proof.
  destruct running as [rl rc], batch as [inputs labels].
  unfold steps_between.
  destruct phase;
    unfold batch_body, forward_loss, with_grad_enabled, call_zero_grad,
      call_model, call_criterion, call_backward, call_step,
      emit, modify, gets, lift, ret, raise, bind; simpl.
  - destruct is_inception; simpl;
      destruct (forward true _ inputs) as [m2 [o|o a]]; simpl;
      try destruct (step _ _) as [o' m4]; simpl;
      try destruct (tensor_eq _ labels); simpl;
      intros H; try discriminate H; inversion H; subst; simpl;
      (split; [reflexivity|]);
      (eexists; split;
       [rewrite <- ?List.app_assoc; simpl; reflexivity|reflexivity]).
  - rewrite andb_false_r. simpl.
    destruct (forward false _ inputs) as [m2 [o|o a]]; simpl;
      try destruct (tensor_eq _ labels); simpl;
      intros H; try discriminate H; inversion H; subst; simpl;
      (split; [reflexivity|]);
      (eexists; split;
       [rewrite <- ?List.app_assoc; simpl; reflexivity|reflexivity]).
Qed.

Lemma steps_of_cons {X} epoch phase (b : X) bs :
  steps_of epoch phase (b :: bs)
  = steps_of epoch phase [b] ++ steps_of epoch phase bs.
Proof. now destruct phase. Qed.

Lemma batches_trace epoch phase bs : forall running w r' w',
  for_each bs (batch_body criterion is_inception epoch phase) running w
  = (inr r', w') ->
  stdout w' = stdout w /\ steps_between w w' (steps_of epoch phase bs).
Proof.
  induction bs as [|b bs IH]; intros running w r' w' H.
  - inversion H. subst. split; [reflexivity|].
    destruct phase; apply steps_between_refl.
  - rewrite for_each_cons in H. apply bind_inv in H.
    destruct H as (r1 & w1 & E1 & E2).
    apply batch_trace in E1. apply IH in E2.
    destruct E1 as [O1 S1], E2 as [O2 S2]. split; [congruence|].
    rewrite steps_of_cons. eapply steps_between_trans; eauto.
Qed.

Definition raised (b a : Q) : Q := if Qgt_bool a b then a else b.

Lemma phase_trace epoch loc phase w loc' w' :
  phase_body dataloaders criterion is_inception epoch loc phase w
  = (inr loc', w') ->
  exists l a,
    stdout w' = stdout w ++ [LPhase phase l a] /\
    steps_between w w' (steps_of epoch phase (batches (dataloaders phase) epoch)) /\
    match phase with
    | train => loc' = loc
    | val => val_acc_history loc' = val_acc_history loc ++ [a] /\
             best_acc loc' = raised (best_acc loc) a
    end.
Proof.
  unfold phase_body. intros H.
  apply bind_inv in H. destruct H as ([] & w1 & E1 & H).
  assert (F1 : stdout w1 = stdout w /\ steps_between w w1 []).
  { destruct phase; inversion E1; subst; simpl;
      (split; [reflexivity|]);
      (eexists; split; [reflexivity|reflexivity]). }
  clear E1. destruct F1 as [O1 S1].
  apply bind_inv in H. destruct H as ([rl rc] & w2 & E2 & H).
  apply batches_trace in E2. destruct E2 as [O2 S2].
  apply bind_inv in H. destruct H as (l & w3 & E3 & H).
  apply bind_inv in H. destruct H as (a & w4 & E4 & H).
  unfold lift in E3, E4.
  assert (w3 = w2) by (inversion E3; reflexivity). subst w3.
  assert (w4 = w2) by (inversion E4; reflexivity). subst w4.
  clear E3 E4.
  erewrite bind_ok in H by apply say_ok.
  exists l, a.
  assert (S3 : steps_between w (set_stdout (stdout w2 ++ [LPhase phase l a]) w2)
                 (steps_of epoch phase (batches (dataloaders phase) epoch))).
  { destruct S1 as (e1 & C1 & F1), S2 as (e2 & C2 & F2).
    exists (e1 ++ e2). simpl. split; [now rewrite C2, C1, List.app_assoc|].
    now rewrite filter_app, F1, F2. }
  assert (O3 : stdout (set_stdout (stdout w2 ++ [LPhase phase l a]) w2)
               = stdout w ++ [LPhase phase l a])
    by (simpl; congruence).
  generalize dependent (set_stdout (stdout w2 ++ [LPhase phase l a]) w2).
  intros w5 H S5 O5. clear S1 S2 O1 O2.
  destruct phase; simpl in H.
  - inversion H. subst. auto.
  - unfold bind, emit, modify, gets, ret in H.
    destruct (Qgt_bool a (best_acc loc)) eqn:G; simpl in H;
      inversion H; subst; simpl; unfold raised; rewrite G;
      (split; [exact O5|]); (split; [|split; reflexivity]).
    + destruct S5 as (evs & C & F). exists (evs ++ [(Some (epoch, val), CallDeepCopy)]).
      simpl. split; [now rewrite C, List.app_assoc|].
      rewrite filter_app, F. reflexivity.
    + exact S5.
Qed.

Lemma epoch_trace loc epoch w loc' w' :
  epoch_body dataloaders criterion num_epochs is_inception loc epoch w
  = (inr loc', w') ->
  exists row,
    stdout w' = stdout w ++ epoch_lines num_epochs epoch row /\
    steps_between w w'
      (steps_of epoch train (batches (dataloaders train) epoch)) /\
    val_acc_history loc' = val_acc_history loc ++ [val_acc row] /\
    best_acc loc' = raised (best_acc loc) (val_acc row).
Proof.
  unfold epoch_body. intros H.
  erewrite bind_ok in H by apply say_ok.
  erewrite bind_ok in H by apply say_ok.
  apply bind_inv in H. destruct H as (loc2 & w2 & E & H).
  erewrite bind_ok in H by apply say_ok. inversion H. subst. clear H.
  rewrite for_each_cons in E. apply bind_inv in E.
  destruct E as (loc1 & w1 & E1 & E).
  rewrite for_each_cons in E. apply bind_inv in E.
  destruct E as (loc2 & w2' & E2 & E). inversion E. subst. clear E.
  apply phase_trace in E1. destruct E1 as (tl & ta & O1 & S1 & ->).
  apply phase_trace in E2. destruct E2 as (vl & va & O2 & S2 & Hh & Hb).
  exists (mkRow tl ta vl va). unfold epoch_lines. simpl.
  split; [|split; [|split; assumption]].
  - rewrite O2, O1. simpl. rewrite <- !List.app_assoc. reflexivity.
  - destruct S1 as (e1 & C1 & F1), S2 as (e2 & C2 & F2).
    exists (e1 ++ e2). simpl. split.
    + rewrite C2, C1. simpl. now rewrite List.app_assoc.
    + rewrite filter_app, F1, F2. simpl. apply app_nil_r.
Qed.

Lemma report_cons n k row rows :
  report n k (row :: rows) = epoch_lines n k row ++ report n (S k) rows.
Proof. reflexivity. Qed.

Lemma epochs_trace n : forall k loc w loc' w',
  for_each (seq k n)
           (epoch_body dataloaders criterion num_epochs is_inception) loc w
  = (inr loc', w') ->
  exists rows,
    List.length rows = n /\
    stdout w' = stdout w ++ report num_epochs k rows /\
    steps_between w w'
      (flat_map (fun e => steps_of e train (batches (dataloaders train) e))
                (seq k n)) /\
    val_acc_history loc' = val_acc_history loc ++ map val_acc rows /\
    best_acc loc' = best_of (map val_acc rows) (best_acc loc).
Proof.
  induction n as [|n IH]; intros k loc w loc' w' H.
  - inversion H. subst. exists []. simpl. rewrite !app_nil_r.
    repeat split; auto. apply steps_between_refl.
  - simpl seq in H. rewrite for_each_cons in H. apply bind_inv in H.
    destruct H as (loc1 & w1 & E1 & E2).
    apply epoch_trace in E1. destruct E1 as (row & O1 & S1 & H1 & B1).
    apply IH in E2. destruct E2 as (rows & L & O2 & S2 & H2 & B2).
    exists (row :: rows). rewrite report_cons. simpl.
    split; [now rewrite L|]. split; [|split; [|split]].
    + rewrite O2, O1. now rewrite <- List.app_assoc.
    + eapply steps_between_trans; eauto.
    + rewrite H2, H1. now rewrite <- List.app_assoc.
    + rewrite B2, B1. reflexivity.
Qed.

Lemma run_trace w m hist w' :
  train_model dataloaders criterion num_epochs is_inception w
  = (inr (m, hist), w') ->
  exists rows,
    List.length rows = num_epochs /\
    map val_acc rows = hist /\
    stdout w'
    = stdout w ++ report num_epochs 0 rows
        ++ [LComplete; LBest (best_of hist 0%Q)] /\
    steps_between w w'
      (flat_map (fun e => steps_of e train (batches (dataloaders train) e))
                (seq 0 num_epochs)).
Proof.
  unfold train_model. intros H.
  erewrite bind_ok in H by reflexivity.
  erewrite bind_ok in H by reflexivity.
  apply bind_inv in H. destruct H as (loc & w1 & E & H).
  apply epochs_trace in E. destruct E as (rows & L & O & S1 & Hh & Hb).
  simpl in Hh, Hb, O.
  erewrite bind_ok in H by apply say_ok.
  erewrite bind_ok in H by apply say_ok.
  unfold call_load_state_dict in H.
  apply bind_inv in H. destruct H as ([] & w2 & E2 & H).
  apply bind_inv in E2. destruct E2 as (m1 & w3 & E3 & E2).
  apply bind_inv in E2. destruct E2 as (m2 & w4 & E4 & E2).
  unfold gets in E3. unfold lift in E4.
  inversion E3. subst m1 w3. clear E3.
  assert (w4 = set_stdout ((stdout w1 ++ [LComplete]) ++ [LBest (best_acc loc)])
                 (set_stdout (stdout w1 ++ [LComplete]) w1))
    by (inversion E4; reflexivity).
  subst w4. clear E4.
  unfold bind, modify, emit, gets, ret in E2, H. inversion E2. subst w2.
  clear E2. injection H as <- <- <-.
  exists rows. split; [exact L|]. split; [auto|]. simpl. split.
  - rewrite O, Hh, Hb. simpl. rewrite <- !List.app_assoc. reflexivity.
  - destruct S1 as (evs & C & F).
    exists ((None, CallDeepCopy) :: evs ++ [(None, CallLoad)]). split.
    + simpl in C |- *. rewrite C. rewrite <- !List.app_assoc. reflexivity.
    + simpl. rewrite filter_app, F. simpl. apply app_nil_r.
Qed.

(** X8: a run that returns has printed, after what the console held,
    five lines per epoch in the order of the epochs (the header with the
    index of the last epoch, the rule, the figures of the training
    phase, those of the validation phase, an empty line) and the two
    closing lines; the validation accuracies printed are the history
    returned, and the best accuracy printed is the greatest of them, or
    zero when none is greater than zero. *)
Theorem console_of_a_run w m hist :
  fst (train_model dataloaders criterion num_epochs is_inception w)
  = inr (m, hist) ->
  exists rows,
    List.length rows = num_epochs /\
    map val_acc rows = hist /\
    stdout (snd (train_model dataloaders criterion num_epochs is_inception w))
    = stdout w ++ report num_epochs 0 rows
        ++ [LComplete; LBest (best_of hist 0%Q)].
Proof.
  intros H.
  destruct (train_model _ _ _ _ w) as [r w'] eqn:E. simpl in H. subst r.
  apply run_trace in E. destruct E as (rows & L & Hh & O & _).
  exists rows. auto.
Qed.

(** X9: in a run that returns, the optimizer steps are exactly one per
    batch of each training phase, in the order of the epochs: none is
    made in a validation phase or outside the loop. *)
Theorem one_step_per_training_batch w m hist :
  fst (train_model dataloaders criterion num_epochs is_inception w)
  = inr (m, hist) ->
  exists evs,
    calls (snd (train_model dataloaders criterion num_epochs is_inception w))
    = calls w ++ evs /\
    filter is_step evs
    = flat_map (fun e => map (fun _ => (Some (e, train), CallStep))
                             (batches (dataloaders train) e))
               (seq 0 num_epochs).
Proof.
  intros H.
  destruct (train_model _ _ _ _ w) as [r w'] eqn:E. simpl in H. subst r.
  apply run_trace in E. destruct E as (rows & _ & _ & _ & S1).
  exact S1.
Qed.

End Traces.

(** ** The cells around the two runs *)

Section NotebookMore.
Context {TL : TensorLib} {TV : Torchvision} {FW : Framework}.

(** [plt.plot(x, y, label=...)]: one curve, the points pairing [x] with
    [y]; the library raises [ValueError] when the two do not have the
    same length. *)
Definition plt_plot (x : list Z) (y : list Q) (label : string)
  : Exc + string * list (Z * Q) :=
  if Nat.eqb (List.length x) (List.length y) then inr (label, combine x y)
  else inl ValueError.

(** [range(a, b)] *)
Definition range (a b : nat) : list Z := map Z.of_nat (seq a (b - a)).

(** The cell that trains the same architecture from scratch and plots
    the two histories, as a function of the global variables it reads:
    [[
scratch_model,_ = initialize_model(model_name, num_classes, feature_extract=False, use_pretrained=False)
scratch_optimizer = optim.SGD(scratch_model.parameters(), lr=0.001, momentum=0.9)
scratch_criterion = nn.CrossEntropyLoss()
_,scratch_hist = train_model(scratch_model, dataloaders_dict, scratch_criterion, scratch_optimizer, num_epochs=num_epochs, is_inception=(model_name=="inception"))
ohist = [h.cpu().numpy() for h in hist]
shist = [h.cpu().numpy() for h in scratch_hist]
plt.plot(range(1,num_epochs+1),ohist,label="Pretrained")
plt.plot(range(1,num_epochs+1),shist,label="Scratch")
    ]]
    It returns the curves of the figure.  [dataloaders_dict] gives the
    loaders as they are when the cell runs. *)
Definition scratch_cell (model_name : string) (num_classes : Z)
    (num_epochs : nat) (dataloaders_dict : Phase -> DataLoader)
    (scratch_criterion : logits -> list nat -> loss) (hist : list Q)
  : M Session (list (string * list (Z * Q))) :=
  '(scratch_model, _) <-
    in_console (initialize_model model_name num_classes false false) ;;
  let scratch_optimizer :=
    optim_SGD (map fst (named_parameters scratch_model))
              (1 # 1000)%Q (9 # 10)%Q in
  '(_, scratch_hist) <-
    with_objects scratch_model scratch_optimizer
      (train_model dataloaders_dict scratch_criterion num_epochs
                   (String.eqb model_name "inception")) ;;
  let ohist := hist in
  let shist := scratch_hist in
  pretrained <- lift (plt_plot (range 1 (num_epochs + 1)) ohist "Pretrained") ;;
  scratch <- lift (plt_plot (range 1 (num_epochs + 1)) shist "Scratch") ;;
  ret [pretrained; scratch].

Lemma print_names names : forall s,
  for_each names (fun _ name => in_console (print (LText name))) tt s
  = (inr tt,
     mkSession (s_grad_enabled s) (s_calls s) (s_stdout s ++ map LText names)).
Proof.
  induction names as [|n names IH]; intros s.
  - simpl. rewrite app_nil_r. now destruct s.
  - rewrite for_each_cons. erewrite bind_ok by reflexivity. rewrite IH.
    simpl. now rewrite <- List.app_assoc.
Qed.

Lemma length_range n : List.length (range 1 (n + 1)) = n.
Proof. unfold range. rewrite length_map, length_seq. lia. Qed.

(** X10: for a supported name, with collaborators that keep their
    contracts, the cells from [initialize_model] to the first
    [train_model] print the adapted model, the loader notice and the
    names to learn, then train that adapted model on the loaders built
    for the input size of its family, with an SGD optimizer over
    [params_to_update] and the two-output flag set for "inception"
    only; the run returns a history of [num_epochs] accuracies and the
    grad mode is as before. *)
Theorem notebook_trains_the_adapted_model name nc num_epochs fe
    (dataloaders_dict : Z -> Phase -> DataLoader)
    (criterion : logits -> list nat -> loss) (s : Session) :
  In name supported -> zoo_shape -> (0 < nc)%Z ->
  framework_laws (adapted name nc fe true) (String.eqb name "inception") ->
  (forall phase, loader_ok num_epochs (dataloaders_dict (resolution name) phase)) ->
  distinct_keys (adapted name nc fe true) ->
  let model_ft := adapted name nc fe true in
  let header :=
    [LModel model_ft; LText "Initializing Datasets and Dataloaders...";
     LText "Params to learn:"] ++ map LText (params_to_learn model_ft) in
  exists hist w',
    train_model (dataloaders_dict (resolution name)) criterion num_epochs
                (String.eqb name "inception")
                (mkWorld model_ft
                         (optim_SGD (params_to_update model_ft fe)
                                    (1 # 1000)%Q (9 # 10)%Q)
                         (s_grad_enabled s) (s_calls s) (s_stdout s ++ header))
    = (inr (model w', hist), w') /\
    notebook name nc num_epochs fe dataloaders_dict criterion s
    = (inr (model w', hist),
       mkSession (grad_enabled w') (calls w') (stdout w')) /\
    List.length hist = num_epochs /\
    skeleton (model w') = skeleton model_ft /\
    grad_enabled w' = s_grad_enabled s.
Proof.
  intros Hn Hz Hnc laws Hl Hnd model_ft header.
  set (w := mkWorld model_ft
              (optim_SGD (params_to_update model_ft fe) (1 # 1000)%Q (9 # 10)%Q)
              (s_grad_enabled s) (s_calls s) (s_stdout s ++ header)).
  destruct (train_model_ok (dataloaders_dict (resolution name)) criterion
              laws Hl w eq_refl Hnd)
    as (loc & w1 & w' & _ & F & E & _ & _ & Hs & _).
  exists (val_acc_history loc), w'. split; [exact E|].
  split; [|split; [apply (pf_length F)|split; [exact Hs|]]].
  - unfold notebook.
    erewrite bind_ok
      by (unfold in_console; rewrite (initialize_model_adapted fe true);
          auto; reflexivity).
    cbn beta iota.
    erewrite bind_ok by reflexivity.
    erewrite bind_ok by reflexivity.
    erewrite bind_ok by reflexivity.
    erewrite bind_ok by apply print_names.
    unfold with_objects. cbn [s_grad_enabled s_calls s_stdout].
    replace (mkWorld _ _ _ _ _) with w; [now rewrite E|].
    unfold w, header. f_equal. rewrite <- !List.app_assoc. reflexivity.
  - pose proof (run_rel_train_model (dataloaders_dict (resolution name))
                  criterion num_epochs (String.eqb name "inception") w) as [G _].
    rewrite E in G. exact G.
Qed.

(** X11: the scratch cell trains the model [initialize_model] builds
    from the untrained architecture with nothing frozen, under an
    optimizer that holds all its parameters; with collaborators that
    keep their contracts it returns, and when the first history has
    [num_epochs] entries, as the second then has, the figure holds two
    curves of [num_epochs] points each, the accuracy of epoch [e]
    plotted at [e + 1]; when the first history has another length the
    first [plt.plot] raises [ValueError]. *)
Theorem scratch_cell_plots_both_histories name nc num_epochs
    (dataloaders_dict : Phase -> DataLoader)
    (scratch_criterion : logits -> list nat -> loss)
    (hist : list Q) (s : Session) :
  In name supported -> zoo_shape -> (0 < nc)%Z ->
  framework_laws (adapted name nc false false) (String.eqb name "inception") ->
  (forall phase, loader_ok num_epochs (dataloaders_dict phase)) ->
  distinct_keys (adapted name nc false false) ->
  let scratch_model := adapted name nc false false in
  exists scratch_hist w',
    train_model dataloaders_dict scratch_criterion num_epochs
                (String.eqb name "inception")
                (mkWorld scratch_model
                         (optim_SGD (params_to_update scratch_model false)
                                    (1 # 1000)%Q (9 # 10)%Q)
                         (s_grad_enabled s) (s_calls s) (s_stdout s))
    = (inr (model w', scratch_hist), w') /\
    List.length scratch_hist = num_epochs /\
    scratch_cell name nc num_epochs dataloaders_dict scratch_criterion hist s
    = (if Nat.eqb (List.length hist) num_epochs
       then inr [("Pretrained"%string,
                  combine (map Z.of_nat (seq 1 num_epochs)) hist);
                 ("Scratch"%string,
                  combine (map Z.of_nat (seq 1 num_epochs)) scratch_hist)]
       else inl ValueError,
       mkSession (grad_enabled w') (calls w') (stdout w')).
Proof.
  intros Hn Hz Hnc laws Hl Hnd scratch_model.
  set (w := mkWorld scratch_model
              (optim_SGD (params_to_update scratch_model false)
                         (1 # 1000)%Q (9 # 10)%Q)
              (s_grad_enabled s) (s_calls s) (s_stdout s)).
  destruct (train_model_ok dataloaders_dict scratch_criterion
              laws Hl w eq_refl Hnd)
    as (loc & w1 & w' & _ & F & E & _).
  exists (val_acc_history loc), w'. split; [exact E|].
  pose proof (pf_length F) as Hlen. split; [exact Hlen|].
  unfold scratch_cell.
  erewrite bind_ok
    by (unfold in_console; rewrite (initialize_model_adapted false false);
        auto; reflexivity).
  cbn beta iota.
  erewrite bind_ok
    by (unfold with_objects; fold scratch_model;
        change (mkWorld scratch_model _ _ _ _) with w; rewrite E; reflexivity).
  cbn beta iota zeta. unfold bind, lift, ret, plt_plot.
  rewrite !length_range, Hlen, Nat.eqb_refl.
  replace (range 1 (num_epochs + 1)) with (map Z.of_nat (seq 1 num_epochs))
    by (unfold range; do 2 f_equal; lia).
  rewrite (Nat.eqb_sym num_epochs).
  destruct (Nat.eqb (List.length hist) num_epochs); reflexivity.
Qed.

End NotebookMore.

(** ** When the best weights are loaded *)

Section LoadOnce.
Context {TL : TensorLib} {FW : Framework}.
Variable dataloaders : Phase -> DataLoader.
Variable criterion : logits -> list nat -> loss.
Variable num_epochs : nat.
Variable is_inception : bool.














End LoadOnce.

(** * The profiled training loop of the TensorBoard profiler tutorial *)

Module TensorboardProfiler.

Section Profiled.
Context {TL : TensorLib} {FW : Framework}.

(** The profiler object belongs to the framework: entering and leaving
    the [with] block and [prof.step()] are its methods. *)
Variable profiler : Type.
Variable prof_enter prof_step prof_exit : profiler -> profiler.

(** The global [criterion]; the globals [model] and [optimizer] are those
    of the world. *)
Variable criterion : logits -> list nat -> loss.

(** [[
def train(data):
    inputs, labels = data[0].to(device=device), data[1].to(device=device)
    outputs = model(inputs)
    loss = criterion(outputs, labels)
    optimizer.zero_grad()
    loss.backward()
    optimizer.step()
]]
    A pair of outputs handed to the criterion raises [TypeError]. *)
Definition train (data : list image * list nat) : M World unit :=
  let '(inputs, labels) := data in
  out <- call_model None inputs ;;
  match out with
  | Single outputs =>
      loss_ <- call_criterion None Primary criterion outputs labels ;;
      call_zero_grad None ;;
      call_backward None loss_ ;;
      call_step None
  | WithAux _ _ => raise TypeError
  end.

Definition in_world {A} (c : M World A) : M (World * profiler) A :=
  fun s => let (r, w') := c (fst s) in (r, (w', snd s)).

Definition call_prof_step : M (World * profiler) unit :=
  modify (fun s => (fst s, prof_step (snd s))).

(** [enumerate(train_loader)], from the index [first] *)
Definition enumerate_from {X} (first : nat) (l : list X) : list (nat * X) :=
  combine (seq first (List.length l)) l.

(** [[
    for step, batch_data in enumerate(train_loader):
        if step >= (1 + 1 + 3) * 2:
            break
        train(batch_data)
        prof.step()
]] *)
Fixpoint training_loop (items : list (nat * (list image * list nat)))
  : M (World * profiler) unit :=
  match items with
  | [] => ret tt
  | (step_, batch_data) :: rest =>
      if Nat.leb ((1 + 1 + 3) * 2) step_ then ret tt
      else
        in_world (train batch_data) ;;
        call_prof_step ;;
        training_loop rest
  end.

(** [with torch.profiler.profile(...) as prof: ...]: the profiler is left
    on the way out, also when the body raises. *)
Definition profile_cell (train_loader : list (list image * list nat))
  : M (World * profiler) unit :=
  fun s =>
    let (r, s') :=
      training_loop (enumerate_from 0 train_loader) (fst s, prof_enter (snd s)) in
    (r, (fst s', prof_exit (snd s'))).

(** The world a call of [train] that returns leaves. *)
Definition trained_on (w : World) (data : list image * list nat) : World :=
  let (m1, out) := forward (grad_enabled w) (model w) (fst data) in
  let loss_ := criterion (primary out) (snd data) in
  let (o', m4) := step (optimizer w) (backward loss_ (zero_grad (optimizer w) m1)) in
  mkWorld m4 o' (grad_enabled w)
          (calls w ++ [(None, CallForward (grad_enabled w));
                       (None, CallCriterion Primary); (None, CallZeroGrad);
                       (None, CallBackward); (None, CallStep)])
          (stdout w).

Lemma train_effects data w :
  let r := train data w in
  grad_enabled (snd r) = grad_enabled w /\
  stdout (snd r) = stdout w /\
  exists evs,
    calls (snd r) = calls w ++ evs /\
    filter is_step evs = match fst r with
                         | inr _ => [(None, CallStep)]
                         | inl _ => []
                         end.
Proof.
  destruct data as [inputs labels].
  unfold train, call_model, call_criterion, call_zero_grad, call_backward,
    call_step, emit, modify, gets, ret, raise, bind. simpl.
  destruct (forward (grad_enabled w) (model w) inputs) as [m1 [o|o a]]; simpl;
    try destruct (step _ _) as [o' m4]; simpl;
    (split; [reflexivity|split; [reflexivity|]]);
    (eexists; split;
     [rewrite <- ?List.app_assoc; simpl; reflexivity|reflexivity]).
Qed.

Lemma training_loop_break first bs w p :
  10 <= first ->
  training_loop (enumerate_from first bs) (w, p) = (inr tt, (w, p)).
Proof.
  intros H. destruct bs as [|b bs]; [reflexivity|].
  unfold enumerate_from. simpl combine. cbn [training_loop].
  change ((1 + 1 + 3) * 2) with 10.
  destruct (Nat.leb_spec 10 first); [reflexivity|lia].
Qed.

Lemma training_loop_cons first b bs w p :
  first < 10 ->
  training_loop (enumerate_from first (b :: bs)) (w, p)
  = match train b w with
    | (inl e, w1) => (inl e, (w1, p))
    | (inr _, w1) =>
        training_loop (enumerate_from (S first) bs) (w1, prof_step p)
    end.
Proof.
  intros H. unfold enumerate_from. simpl combine. cbn [training_loop].
  change ((1 + 1 + 3) * 2) with 10.
  destruct (Nat.leb_spec 10 first); [lia|].
  unfold bind, in_world, call_prof_step, modify. cbn [fst snd].
  destruct (train b w) as [[e|[]] w1]; reflexivity.
Qed.

Section SingleOutput.
Variable m0 : Module.
Hypothesis laws : framework_laws m0 false.

Lemma train_ok data w :
  skeleton (model w) = skeleton m0 ->
  train data w = (inr tt, trained_on w data) /\
  skeleton (model (trained_on w data)) = skeleton m0.
Proof.
  intros Hs. destruct data as [inputs labels].
  pose proof (forward_aux laws (grad_enabled w) (model w) inputs Hs) as Ha.
  pose proof (forward_keeps laws (grad_enabled w) (model w) inputs) as [K1 _].
  unfold train, trained_on, call_model, call_criterion, call_zero_grad,
    call_backward, call_step, emit, modify, gets, ret, raise, bind.
  cbn [fst snd].
  destruct (forward (grad_enabled w) (model w) inputs) as [m1 [o|o a]];
    simpl in Ha, K1; [|discriminate].
  simpl.
  pose proof (zero_grad_keeps laws (optimizer w) m1) as [K2 _].
  pose proof (backward_keeps laws (criterion o labels)
                (zero_grad (optimizer w) m1)) as [K3 _].
  pose proof (step_keeps laws (optimizer w)
                (backward (criterion o labels) (zero_grad (optimizer w) m1)))
    as [K4 _].
  destruct (step _ _) as [o' m4]. simpl in K4 |- *. split.
  - f_equal. apply world_ext; simpl; auto.
    now rewrite <- !List.app_assoc.
  - congruence.
Qed.

Lemma training_loop_ok bs : forall first w p,
  skeleton (model w) = skeleton m0 ->
  training_loop (enumerate_from first bs) (w, p)
  = (inr tt,
     (fold_left trained_on (firstn (10 - first) bs) w,
      Nat.iter (Nat.min (List.length bs) (10 - first)) prof_step p)).
Proof.
  induction bs as [|b bs IH]; intros first w p Hs.
  - simpl. now rewrite firstn_nil.
  - destruct (Nat.leb_spec 10 first) as [Hge|Hlt].
    + rewrite training_loop_break by exact Hge.
      replace (10 - first) with 0 by lia. rewrite Nat.min_0_r. reflexivity.
    + rewrite training_loop_cons by exact Hlt.
      destruct (train_ok b w Hs) as [E Hs']. rewrite E.
      rewrite IH by exact Hs'.
      replace (10 - first) with (S (10 - S first)) by lia.
      cbn [firstn fold_left List.length]. rewrite <- Nat.succ_min_distr.
      rewrite Nat.iter_succ_r. reflexivity.
Qed.

End SingleOutput.

Lemma training_loop_effects bs : forall first w p,
  let r := training_loop (enumerate_from first bs) (w, p) in
  exists k evs,
    k <= Nat.min (List.length bs) (10 - first) /\
    snd (snd r) = Nat.iter k prof_step p /\
    calls (fst (snd r)) = calls w ++ evs /\
    filter is_step evs = repeat (None, CallStep) k /\
    grad_enabled (fst (snd r)) = grad_enabled w /\
    stdout (fst (snd r)) = stdout w /\
    match fst r with
    | inr _ => k = Nat.min (List.length bs) (10 - first)
    | inl _ => k < Nat.min (List.length bs) (10 - first)
    end.
Proof.
  induction bs as [|b bs IH]; intros first w p.
  - exists 0, []. simpl. rewrite app_nil_r. repeat split; auto.
  - cbv zeta. destruct (Nat.leb_spec 10 first) as [Hge|Hlt].
    + rewrite training_loop_break by exact Hge.
      replace (10 - first) with 0 by lia. rewrite Nat.min_0_r.
      exists 0, []. cbn [fst snd]. rewrite app_nil_r.
      repeat split; auto.
    + rewrite training_loop_cons by exact Hlt.
      pose proof (train_effects b w) as (G & O & evs1 & C1 & F1).
      assert (Hmin : Nat.min (List.length (b :: bs)) (10 - first)
                     = S (Nat.min (List.length bs) (10 - S first)))
        by (cbn [List.length]; lia).
      rewrite Hmin.
      destruct (train b w) as [[e|[]] w1]; cbn [fst snd] in *.
      * exists 0, evs1. cbn [Nat.iter nat_rect repeat].
        repeat split; auto; lia.
      * specialize (IH (S first) w1 (prof_step p)). cbv zeta in IH.
        destruct IH as (k & evs2 & Hk & P & C2 & F2 & G2 & O2 & R).
        exists (S k), (evs1 ++ evs2). split; [lia|].
        split; [now rewrite Nat.iter_succ_r|].
        split; [now rewrite C2, C1, List.app_assoc|].
        split; [now rewrite filter_app, F1, F2|].
        split; [congruence|]. split; [congruence|].
        destruct (fst (training_loop _ _)); lia.
Qed.

(** X13: with a model that returns a single output and collaborators
    that keep their contracts, the profiled cell returns after having
    trained on the first ten batches of the loader, in order, and on no
    other: the world is the one ten calls of [train] leave, or as many
    as the loader has batches if fewer, and the profiler has been
    entered, stepped once after each of them and left. *)
Theorem profile_cell_trains_on_the_first_ten_batches
    (m0 : Module) (train_loader : list (list image * list nat)) w p :
  framework_laws m0 false ->
  skeleton (model w) = skeleton m0 ->
  profile_cell train_loader (w, p)
  = (inr tt,
     (fold_left trained_on (firstn 10 train_loader) w,
      prof_exit (Nat.iter (Nat.min (List.length train_loader) 10) prof_step
                          (prof_enter p)))).
Proof.
  intros laws Hs. unfold profile_cell. cbn [fst snd].
  rewrite (training_loop_ok laws) by exact Hs. reflexivity.
Qed.

(** X14: whatever the model and the loader, and whether the cell
    returns or raises, the profiler is entered, stepped [k] times and
    left, where [k] is the number of optimizer steps made, at most ten
    and at most the number of batches, and exactly the smaller of the
    two when the cell returns; the grad mode and the console are as
    before. *)
Theorem profile_cell_steps_at_most_ten_times
    (train_loader : list (list image * list nat)) w p :
  let r := profile_cell train_loader (w, p) in
  exists k evs,
    k <= Nat.min (List.length train_loader) 10 /\
    snd (snd r) = prof_exit (Nat.iter k prof_step (prof_enter p)) /\
    calls (fst (snd r)) = calls w ++ evs /\
    filter is_step evs = repeat (None, CallStep) k /\
    grad_enabled (fst (snd r)) = grad_enabled w /\
    stdout (fst (snd r)) = stdout w /\
    match fst r with
    | inr _ => k = Nat.min (List.length train_loader) 10
    | inl _ => k < Nat.min (List.length train_loader) 10
    end.
Proof.
  cbv zeta. unfold profile_cell. cbn [fst snd].
  pose proof (training_loop_effects train_loader 0 w (prof_enter p)) as H.
  cbv zeta in H. rewrite Nat.sub_0_r in H.
  destruct H as (k & evs & Hk & P & C & F & G & O & R).
  destruct (training_loop _ _) as [r [w' p']]. cbn [fst snd] in *.
  exists k, evs. rewrite P. auto 10.
Qed.

End Profiled.

End TensorboardProfiler.

(** * Runs of the further properties on the sample instance *)

Lemma lookup_found_map {A B} (f : A -> B) key (l : list (string * A)) :
  match lookup key (map (fun pl => (fst pl, f (snd pl))) l) with
  | Some _ => true
  | None => false
  end
  = match lookup key l with Some _ => true | None => false end.
Proof.
  induction l as [|[k v] l IH]; simpl; auto.
  destruct (String.eqb k key); auto.
Qed.

Lemma has_aux_of_skeleton m m' : skeleton m = skeleton m' -> has_aux m = has_aux m'.
Proof.
  intros H. unfold has_aux.
  rewrite <- (lookup_found_map (fun l => map fst (params l)) _ (layers m)).
  rewrite <- (lookup_found_map (fun l => map fst (params l)) _ (layers m')).
  unfold skeleton in H. now rewrite H.
Qed.

(** The sample framework keeps its contract for every model, the
    two-output flag being set exactly for a two-headed one. *)
Lemma sample_laws_for m0 : framework_laws m0 (has_aux m0).
Proof.
  constructor; simpl.
  - intros. apply same_module_shape_refl.
  - intros. apply map_params_keeps.
  - intros. apply map_params_keeps.
  - intros. apply map_params_keeps.
  - intros g m x _. destruct (training m && has_aux m); simpl; apply length_map.
  - intros g m x H. rewrite (has_aux_of_skeleton _ _ H).
    destruct (training m), (has_aux m0); reflexivity.
Qed.

Lemma sample_adapted_distinct_keys fe up :
  distinct_keys (adapted "resnet" 2 fe up).
Proof.
  unfold distinct_keys. destruct fe, up; vm_compute;
    repeat constructor; simpl; intuition discriminate.
Qed.

(** A loader whose training partition yields nothing. *)
Definition no_batches (dataset_size : nat) (phase : Phase) : DataLoader :=
  mkLoader dataset_size (fun _ => []).

Lemma adapter_keeps_the_backbone_witness :
  exists m sz,
    initialize_model "squeezenet" 2 true true [] = (inr (m, sz), []) /\
    map fst (layers m) = map fst (layers (loaded "squeezenet" true)) /\
    training m = training (loaded "squeezenet" true) /\
    num_classes_attr m = Some 2%Z.
Proof.
  destruct (@adapter_keeps_the_backbone tensors zoo "squeezenet"%string 2%Z
              true true [])
    as (m & sz & E & K & T & N & _);
    [simpl; tauto | exact sample_zoo_shape | lia |].
  exists m, sz. repeat split; assumption.
Defined.

Lemma first_phase_without_batches_raises_witness :
  fst (train_model (no_batches 0) errors 1 false tiny_world)
  = inl ZeroDivisionError /\
  fst (train_model (no_batches 2) errors 1 false tiny_world)
  = inl AttributeError.
Proof.
  split.
  - apply (@first_phase_without_batches_raises tensors framework
             (no_batches 0) errors 1 false tiny_world); [lia|reflexivity].
  - apply (@first_phase_without_batches_raises tensors framework
             (no_batches 2) errors 1 false tiny_world); [lia|reflexivity].
Defined.


Lemma run_of_zero_epochs_witness :
  exists m,
    train_model (loaders [1; 1]) errors 0 false tiny_world
    = (inr (m, []),
       mkWorld m (optimizer tiny_world) (grad_enabled tiny_world)
               (calls tiny_world ++ [(None, CallDeepCopy); (None, CallLoad)])
               (stdout tiny_world ++ [LComplete; LBest 0%Q])) /\
    state_dict m = state_dict (model tiny_world) /\
    skeleton m = skeleton (model tiny_world) /\
    training m = training (model tiny_world).
Proof.
  apply (@run_of_zero_epochs tensors framework (loaders [1; 1]) errors false
           tiny_world).
  exact sample_distinct_keys.
Defined.

(** The model a run of two epochs of the one-layer model returns. *)
Definition tiny_trained : Module :=
  model (snd (train_model (loaders [1; 1]) errors 2 false tiny_world)).

Lemma console_of_a_run_witness :
  exists rows,
    List.length rows = 2 /\
    map val_acc rows = [(0 # 2)%Q; (2 # 2)%Q] /\
    stdout (snd (train_model (loaders [1; 1]) errors 2 false tiny_world))
    = stdout tiny_world ++ report 2 0 rows
        ++ [LComplete; LBest (best_of [(0 # 2)%Q; (2 # 2)%Q] 0%Q)].
Proof.
  apply (@console_of_a_run tensors framework (loaders [1; 1]) errors 2 false
           tiny_world tiny_trained).
  vm_compute. reflexivity.
Defined.

Lemma one_step_per_training_batch_witness :
  exists evs,
    calls (snd (train_model (loaders [1; 1]) errors 2 false tiny_world))
    = calls tiny_world ++ evs /\
    filter is_step evs
    = [(Some (0, train), CallStep); (Some (1, train), CallStep)].
Proof.
  apply (@one_step_per_training_batch tensors framework (loaders [1; 1]) errors
           2 false tiny_world tiny_trained [(0 # 2)%Q; (2 # 2)%Q]).
  vm_compute. reflexivity.
Defined.

Lemma notebook_trains_the_adapted_model_witness :
  exists hist w',
    notebook "resnet" 2 2 true (fun _ => loaders [1; 1]) errors empty_session
    = (inr (model w', hist),
       mkSession (grad_enabled w') (calls w') (stdout w')) /\
    List.length hist = 2 /\
    skeleton (model w') = skeleton (adapted "resnet" 2 true true) /\
    grad_enabled w' = true.
Proof.
  destruct (@notebook_trains_the_adapted_model tensors zoo framework
              "resnet"%string 2%Z 2 true (fun _ => loaders [1; 1]) errors
              empty_session)
    as (hist & w' & _ & E & L & K & G);
    [ simpl; tauto | exact sample_zoo_shape | lia
    | exact (sample_laws_for (adapted "resnet" 2 true true))
    | now apply sample_loaders_ok
    | apply sample_adapted_distinct_keys | ].
  exists hist, w'. repeat split; assumption.
Defined.

Lemma scratch_cell_plots_both_histories_witness :
  exists scratch_hist w',
    List.length scratch_hist = 2 /\
    scratch_cell "resnet" 2 2 (loaders [1; 1]) errors [(0 # 2)%Q; (2 # 2)%Q]
                 empty_session
    = (inr [("Pretrained"%string, [(1%Z, (0 # 2)%Q); (2%Z, (2 # 2)%Q)]);
            ("Scratch"%string,
             combine (map Z.of_nat (seq 1 2)) scratch_hist)],
       mkSession (grad_enabled w') (calls w') (stdout w')).
Proof.
  destruct (@scratch_cell_plots_both_histories tensors zoo framework
              "resnet"%string 2%Z 2 (loaders [1; 1]) errors
              [(0 # 2)%Q; (2 # 2)%Q] empty_session)
    as (scratch_hist & w' & _ & L & E);
    [ simpl; tauto | exact sample_zoo_shape | lia
    | exact (sample_laws_for (adapted "resnet" 2 false false))
    | now apply sample_loaders_ok
    | apply sample_adapted_distinct_keys | ].
  exists scratch_hist, w'. split; [exact L|exact E].
Defined.

(** A loader of twelve batches, and a profiler that counts its steps
    between entering ([+ 100]) and leaving ([+ 1000]). *)
Definition twelve_batches : list (list nat * list nat) :=
  repeat ([0; 1], [0; 1]) 12.

Lemma profile_cell_trains_on_the_first_ten_batches_witness :
  TensorboardProfiler.profile_cell (Nat.add 100) S (Nat.add 1000) errors
    twelve_batches (tiny_world, 0)
  = (inr tt,
     (fold_left (TensorboardProfiler.trained_on errors)
                (firstn 10 twelve_batches) tiny_world,
      1110)).
Proof.
  apply (@TensorboardProfiler.profile_cell_trains_on_the_first_ten_batches
           tensors framework nat (Nat.add 100) S (Nat.add 1000) errors tiny
           twelve_batches tiny_world 0);
    [exact sample_laws|reflexivity].
Defined.
